(** * The cross-section spline list of GENIE: cache and XML persistence

    A shallow embedding of [Framework/Utils/XSecSplineList.cxx], and of the
    parts of [stdapp/gSplinePlotter.cxx] that load the list, read the command
    line and lay out the graphs.

    Modelling conventions.
    - [double] is modelled by the real numbers [R]: rounding, overflow to
      infinity and NaN are outside the model.  Where IEEE arithmetic would
      produce a NaN or an infinity (a division by [nka-1 = 0], the logarithm
      of a non-positive energy) the code goes on with that value and the
      model does not follow it: it ends with the fault [NotANumber], and no
      theorem says anything about such a run.  The theorems compare
      [double]s and name the expressions the code evaluates; they do not
      rest on identities that hold for real numbers and fail under rounding
      (such as [Power 10 (Log10 x) = x]).  Lemmas of real arithmetic serve
      only to show that the hypotheses of a theorem hold at a sample input.
    - [int] is modelled by [Z]; the only arithmetic on it ([nknots - nkb],
      [i + nkb], [iknot++]) stays far from the 32-bit bounds for every input
      the theorems below consider.  A numeral read by [atoi] is assumed to
      fit an [int] wherever its value matters.
    - Memory is not bounded: an allocation of a non-negative size succeeds.
    - [map<string, Spline*>] is a [gmap string Spline], [set<string>] a
      [gset string].  The store owns its splines and never frees or shares
      them, so the pointers are modelled by the values they point to.
    - A call can terminate the process ([assert], an uncaught exception) or
      leave the C++ abstract machine (null dereference, access outside an
      array, read of an indeterminate value): those are the faults [Aborted]
      and [UndefinedBehaviour] of the [result] type. *)

From Stdlib Require Import Reals Lra Lia ZArith.
From Stdlib Require Import String Ascii.
From stdpp Require Import gmap strings list fin_maps sorting pretty.

Local Open Scope string_scope.
Local Open Scope list_scope.
Local Open Scope Z_scope.

(** ** Outcomes of a call *)

Inductive fault : Type :=
  | Aborted
  | UndefinedBehaviour
  | NotANumber.

Inductive result (A : Type) : Type :=
  | Ok (a : A)
  | Fault (f : fault).
Arguments Ok {A} a.
Arguments Fault {A} f.

(** Sequencing stops at the first fault. *)
#[global] Instance result_ret : MRet result := λ A a, Ok a.
#[global] Instance result_bind : MBind result := λ A B k m,
  match m with
  | Ok a => k a
  | Fault f => Fault f
  end.

(** Comparisons of [double]s are decided by the order of the reals. *)
#[global] Instance Rlt_decision : RelDecision Rlt := Rlt_dec.
#[global] Instance Rle_decision : RelDecision Rle := Rle_dec.

(** ** Collaborators: interaction, algorithm, spline *)

Record TLorentzVector : Type := mkP4 { Px : R; Py : R; Pz : R; Energy : R }.

(** What the spline list uses of an [Interaction]: its canonical string, its
    threshold energy, the mass of its probe, and the probe four-momentum that
    [InitStatePtr()->SetProbeP4] overwrites. *)
Record Interaction : Type := mkInteraction {
  AsString  : string;
  Threshold : R;
  ProbeMass : R;
  ProbeP4   : TLorentzVector }.

Definition SetProbeP4 (interaction : Interaction) (p4 : TLorentzVector) : Interaction :=
  {| AsString := AsString interaction; Threshold := Threshold interaction;
     ProbeMass := ProbeMass interaction; ProbeP4 := p4 |}.

Record AlgId : Type := mkAlgId { Name : string; Config : string }.

(** [Integral] reads the interaction it is given, probe momentum included. *)
Record XSecAlgorithmI : Type := mkAlg {
  Id : AlgId;
  Integral : Interaction -> R }.

(** A spline is known here by its knots only. *)
Record Spline : Type := mkSpline { Knots : list (R * R) }.

Definition NKnots_of (spl : Spline) : Z := Z.of_nat (length (Knots spl)).

(** [new Spline(nknots, E, xsec)]: the first [nknots] cells of both arrays. *)
Definition Spline_new (nknots : Z) (E xsec : list R) : Spline :=
  mkSpline (zip (take (Z.to_nat nknots) E) (take (Z.to_nat nknots) xsec)).

(** ** The store *)

Record XSecSplineList : Type := mkList {
  fSplineMap : gmap string Spline;
  fInitSet   : gset string;
  fUseLogE   : bool;
  fNKnots    : Z;
  fEmin      : R;
  fEmax      : R }.

(** The constructor. *)
Definition XSecSplineList_ctor : XSecSplineList :=
  {| fSplineMap := ∅; fInitSet := ∅; fUseLogE := true; fNKnots := 100;
     fEmin := (1 / 100)%R; fEmax := 100%R |}.

(** [std::map::insert(value_type(k, v))]: no effect when [k] is present. *)
Definition map_insert (k : string) (v : Spline) (m : gmap string Spline) : gmap string Spline :=
  match m !! k with
  | Some _ => m
  | None => <[k := v]> m
  end.

Definition with_map (s : XSecSplineList) (m : gmap string Spline) : XSecSplineList :=
  {| fSplineMap := m; fInitSet := fInitSet s; fUseLogE := fUseLogE s;
     fNKnots := fNKnots s; fEmin := fEmin s; fEmax := fEmax s |}.

Definition with_init (s : XSecSplineList) (i : gset string) : XSecSplineList :=
  {| fSplineMap := fSplineMap s; fInitSet := i; fUseLogE := fUseLogE s;
     fNKnots := fNKnots s; fEmin := fEmin s; fEmax := fEmax s |}.

Definition SetLogE (s : XSecSplineList) (on : bool) : XSecSplineList :=
  {| fSplineMap := fSplineMap s; fInitSet := fInitSet s; fUseLogE := on;
     fNKnots := fNKnots s; fEmin := fEmin s; fEmax := fEmax s |}.

Definition SetNKnots (s : XSecSplineList) (nk : Z) : XSecSplineList :=
  {| fSplineMap := fSplineMap s; fInitSet := fInitSet s; fUseLogE := fUseLogE s;
     fNKnots := if nk <? 10 then 10 else nk; fEmin := fEmin s; fEmax := fEmax s |}.

Definition SetMinE (s : XSecSplineList) (Ev : R) : XSecSplineList :=
  {| fSplineMap := fSplineMap s; fInitSet := fInitSet s; fUseLogE := fUseLogE s;
     fNKnots := fNKnots s; fEmin := if Rlt_dec 0 Ev then Ev else fEmin s;
     fEmax := fEmax s |}.

Definition SetMaxE (s : XSecSplineList) (Ev : R) : XSecSplineList :=
  {| fSplineMap := fSplineMap s; fInitSet := fInitSet s; fUseLogE := fUseLogE s;
     fNKnots := fNKnots s; fEmin := fEmin s;
     fEmax := if Rlt_dec 0 Ev then Ev else fEmax s |}.

Definition SplineExists (s : XSecSplineList) (key : string) : bool :=
  bool_decide (is_Some (fSplineMap s !! key)).

Definition GetSpline (s : XSecSplineList) (key : string) : option Spline :=
  if SplineExists s key then fSplineMap s !! key else None.

(** [GetSplineKeys]: the keys in the iteration order of [std::map]. *)
Definition key_le (a b : string * Spline) : Prop := String.leb a.1 b.1 = true.

#[global] Instance key_le_dec : RelDecision key_le :=
  λ a b, decide (String.leb a.1 b.1 = true).

Definition sorted_entries (m : gmap string Spline) : list (string * Spline) :=
  merge_sort key_le (map_to_list m).

Definition GetSplineKeys (s : XSecSplineList) : list string :=
  (sorted_entries (fSplineMap s)).*1.

(** ** BuildSplineKey *)

Definition BuildSplineKey (alg : option XSecAlgorithmI) (interaction : option Interaction) : string :=
  match alg with
  | None => ""
  | Some a =>
    match interaction with
    | None => ""
    | Some i => Name (Id a) +:+ "/" +:+ Config (Id a) +:+ "/" +:+ AsString i
    end
  end.

(** ** CreateSpline *)

(** [TMath::Log10] and [TMath::Power] on the reals. *)
Definition Log10 (x : R) : R := (ln x / ln 10)%R.
Definition Power (b y : R) : R := Rpower b y.

(** Lines 136-138: unacceptable overrides fall back to the list values. *)
Definition effective_emin (s : XSecSplineList) (e_min : R) : R :=
  if Rlt_dec e_min 0 then fEmin s else e_min.
Definition effective_emax (s : XSecSplineList) (e_max : R) : R :=
  if Rlt_dec e_max 0 then fEmax s else e_max.
Definition effective_nknots (s : XSecSplineList) (nknots : Z) : Z :=
  if nknots <=? 2 then fNKnots s else nknots.

(** Lines 154-158. *)
Definition knots_below_count (Ethr e_min : R) : Z :=
  if Rlt_dec e_min Ethr then 5 else 0.
Definition step_below (Ethr e_min : R) : R :=
  if Rlt_dec e_min Ethr
  then ((Ethr - e_min) / IZR (knots_below_count Ethr e_min))%R else 0%R.

(** Lines 163-168. *)
Definition step_above (uselog : bool) (nka : Z) (E0 e_max : R) : R :=
  if uselog then ((Log10 e_max - Log10 E0) / IZR (nka - 1))%R
  else ((e_max - E0) / IZR (nka - 1))%R.

(** The loop of lines 159-161 writes [E[0..nkb-1]], the loop of lines 170-175
    writes [E[nkb..nkb+nka-1]]. *)
Definition knots_below (nkb : Z) (e_min dEb : R) : list R :=
  (λ i, (e_min + IZR i * dEb)%R) <$> seqZ 0 nkb.
Definition knots_above (uselog : bool) (nka : Z) (E0 dEa : R) : list R :=
  (λ i, if uselog then Power 10 (Log10 E0 + IZR i * dEa)
        else (E0 + IZR i * dEa)%R) <$> seqZ 0 nka.

(** The cells of [E] written by the two loops, in index order. *)
Definition knot_energies (uselog : bool) (nknots : Z) (e_min e_max Ethr : R) : list R :=
  let nkb := knots_below_count Ethr e_min in
  let nka := nknots - nkb in
  let E0 := Rmax Ethr e_min in
  knots_below nkb e_min (step_below Ethr e_min)
    ++ knots_above uselog nka E0 (step_above uselog nka E0 e_max).

(** Where IEEE arithmetic leaves the reals: an above-threshold knot is
    computed ([1 <= nka]) from a step divided by zero ([nka = 1]) or from the
    logarithm of a non-positive number. *)
Definition leaves_the_reals (uselog : bool) (nknots : Z) (e_min e_max Ethr : R) : bool :=
  let nka := nknots - knots_below_count Ethr e_min in
  (1 <=? nka) &&
  ((nka =? 1) ||
   (uselog && (bool_decide (Rmax Ethr e_min <= 0)%R || bool_decide (e_max <= 0)%R))).

(** Lines 182-187: the probe four-momentum at energy [E]. *)
Definition probe_p4 (pr_mass E : R) : TLorentzVector :=
  if Rlt_dec 0 pr_mass
  then mkP4 0 0 (sqrt (Rmax 0 (E * E - pr_mass * pr_mass))) E
  else mkP4 0 0 E E.

(** The loop of lines 181-193, threading the interaction it mutates. *)
Fixpoint integrate (alg : XSecAlgorithmI) (pr_mass : R) (interaction : Interaction)
    (E : list R) : list R * Interaction :=
  match E with
  | [] => ([], interaction)
  | e :: E' =>
    let interaction1 := SetProbeP4 interaction (probe_p4 pr_mass e) in
    let x := Integral alg interaction1 in
    let '(xs, interaction2) := integrate alg pr_mass interaction1 E' in
    (x :: xs, interaction2)
  end.

(** The cells of [E] as [CreateSpline] plans them from its arguments and
    the list values. *)
Definition planned_knots (s : XSecSplineList) (interaction : Interaction)
    (nknots : Z) (e_min e_max : R) : list R :=
  knot_energies (fUseLogE s) (effective_nknots s nknots)
    (effective_emin s e_min) (effective_emax s e_max) (Threshold interaction).

(** Lines 180-197: the spline [CreateSpline] builds, and the interaction as
    the integration loop leaves it. *)
Definition built_spline (s : XSecSplineList) (alg : XSecAlgorithmI)
    (interaction : Interaction) (nknots : Z) (e_min e_max : R) : Spline * Interaction :=
  let n := effective_nknots s nknots in
  let E := planned_knots s interaction nknots e_min e_max in
  let '(xsec, interaction') :=
    integrate alg (ProbeMass interaction) interaction (take (Z.to_nat n) E) in
  (Spline_new n E xsec, interaction').

(** [CreateSpline].  The automatic arrays [xsec] and [E] are declared with
    the caller's [nknots], before the fall-back to the list value: a
    non-positive size, and every access at an index beyond it, is undefined
    behaviour.  The [assert] is taken as compiled in.  The result is the
    updated store and the interaction as the call leaves it. *)
Definition CreateSpline (s : XSecSplineList)
    (alg : option XSecAlgorithmI) (interaction : option Interaction)
    (nknots : Z) (e_min e_max : R) : result (XSecSplineList * Interaction) :=
  match alg, interaction with
  | Some a, Some i =>
    let capacity := nknots in
    if capacity <=? 0 then Fault UndefinedBehaviour else
    let key := BuildSplineKey alg interaction in
    let Emin := effective_emin s e_min in
    let Emax := effective_emax s e_max in
    let n := effective_nknots s nknots in
    if Rlt_dec Emin Emax then
      let Ethr := Threshold i in
      let nkb := knots_below_count Ethr Emin in
      if capacity <? Z.max nkb n then Fault UndefinedBehaviour else
      if leaves_the_reals (fUseLogE s) n Emin Emax Ethr then Fault NotANumber else
      let '(spline, i') := built_spline s a i nknots e_min e_max in
      Ok (with_map s (map_insert key spline (fSplineMap s)), i')
    else Fault Aborted
  | _, _ => Fault UndefinedBehaviour
  end.

(** ** External text functions

    [utils::str::TrimSpaces] and the conversions between [double]s, [int]s
    and their text are not part of the file modelled here: the loader and the
    writer take them as parameters.  [atoi] is modelled below. *)
Record TextFunctions : Type := mkText {
  TrimSpaces : string -> string;
  atof       : string -> R;
  fmt_int    : Z -> string;
  fmt_double : R -> string }.

(** [atoi] of the C library: leading white space, an optional sign, then
    decimal digits up to the first other character (a value that does not
    fit an [int] is not considered). *)
Definition isspace (c : ascii) : bool :=
  let n := nat_of_ascii c in
  ((n =? 32) || ((9 <=? n) && (n <=? 13)))%nat.

Definition digit_value (c : ascii) : option Z :=
  let n := Z.of_nat (nat_of_ascii c) in
  if (48 <=? n) && (n <=? 57) then Some (n - 48) else None.

Fixpoint atoi_digits (acc : Z) (str : string) : Z :=
  match str with
  | String c rest =>
    match digit_value c with
    | Some d => atoi_digits (10 * acc + d) rest
    | None => acc
    end
  | EmptyString => acc
  end.

Fixpoint skip_spaces (str : string) : string :=
  match str with
  | String c rest => if isspace c then skip_spaces rest else str
  | EmptyString => str
  end.

Definition atoi (str : string) : Z :=
  match skip_spaces str with
  | String "-" rest => - atoi_digits 0 rest
  | String "+" rest => atoi_digits 0 rest
  | rest => atoi_digits 0 rest
  end.

(** [atoi] above is the value of the numeral.  The C function returns an
    [int]; on a numeral whose value does not fit an [int] its behaviour is
    undefined.  Every statement that depends on the number read assumes that
    it fits. *)
Definition INT_MIN : Z := -2147483648.
Definition INT_MAX : Z := 2147483647.
Definition fits_int (z : Z) : Prop := INT_MIN <= z <= INT_MAX.

(** ** The XML text reader as LoadFromXml consumes it

    One [XmlNode] per successful [xmlTextReaderRead]: what
    [xmlTextReaderName], [xmlTextReaderValue], [xmlTextReaderNodeType],
    [xmlTextReaderDepth] and [xmlTextReaderGetAttribute] answer at that
    position.  A file is the sequence of nodes read before the call that ends
    the loop, and how that call ended: [0] at the end of the document, [-1]
    on a parse error. *)
Record XmlNode : Type := mkNode {
  node_name  : string;
  node_value : string;
  node_type  : Z;
  node_depth : Z;
  node_attrs : list (string * string) }.

Inductive ReadEnd : Type := EndOfDocument | ReadError.

Record XmlFile : Type := mkFile { file_nodes : list XmlNode; file_end : ReadEnd }.

(** The files that can be opened for reading, and the paths at which an
    output stream can be created. *)
Record FileSystem : Type := mkFS {
  fs_files     : gmap string XmlFile;
  fs_creatable : string -> bool }.

(** The enumerators of [XmlParserStatus_t] that the source names. *)
Inductive XmlParserStatus_t : Type :=
  | kXmlOK
  | kXmlNotParsed
  | kXmlEmpty
  | kXmlInvalidRoot.

Definition kNodeTypeStartElement : Z := 1.
Definition kNodeTypeEndElement   : Z := 15.
Definition kKnotX                : Z := 0.
Definition kKnotY                : Z := 1.

Definition root_name : string := "genie_xsec_spline_list".

Fixpoint GetAttribute (attrs : list (string * string)) (name : string) : option string :=
  match attrs with
  | [] => None
  | (a, v) :: rest => if String.eqb a name then Some v else GetAttribute rest name
  end.

(** [TrimSpaces] applied to what [xmlTextReaderGetAttribute] returns: a
    missing attribute is a null pointer turned into a [std::string]. *)
Definition trimmed_attribute (txt : TextFunctions) (n : XmlNode) (name : string) : result string :=
  match GetAttribute (node_attrs n) name with
  | Some v => Ok (TrimSpaces txt v)
  | None => Fault UndefinedBehaviour
  end.

(** A heap array of [double]s: [None] is a null or an already deleted
    pointer, a cell is [None] until it is first written. *)
Definition buffer : Type := option (list (option R)).

(** The local variables of [LoadFromXml]. *)
Record LoadState : Type := mkLoad {
  val_type    : Z;
  iknot       : Z;
  nknots      : Z;
  E           : buffer;
  xsec        : buffer;
  spline_name : string }.

Definition load_init : LoadState :=
  {| val_type := -1; iknot := 0; nknots := 0; E := None; xsec := None;
     spline_name := "" |}.

(** [new double[n]]: a negative [n] makes the allocation throw, and nothing
    catches the exception. *)
Definition new_double (n : Z) : result buffer :=
  if n <? 0 then Fault Aborted else Ok (Some (replicate (Z.to_nat n) None)).

Definition store_cell (b : buffer) (i : Z) (v : R) : result buffer :=
  match b with
  | Some cells =>
    if (0 <=? i) && (i <? Z.of_nat (length cells))
    then Ok (Some (<[Z.to_nat i := Some v]> cells))
    else Fault UndefinedBehaviour
  | None => Fault UndefinedBehaviour
  end.

(** The cells a [Spline] constructor reads. *)
Definition read_cells (b : buffer) : result (list R) :=
  match b with
  | Some cells =>
    match mapM (M := option) (λ c : option R, c) cells with
    | Some vs => Ok vs
    | None => Fault UndefinedBehaviour
    end
  | None => Fault UndefinedBehaviour
  end.

Definition is_start (n : XmlNode) (name : string) : bool :=
  String.eqb (node_name n) name && (node_type n =? kNodeTypeStartElement).
Definition is_end (n : XmlNode) (name : string) : bool :=
  String.eqb (node_name n) name && (node_type n =? kNodeTypeEndElement).
Definition is_root_start (n : XmlNode) : bool :=
  (node_depth n =? 0) && (node_type n =? kNodeTypeStartElement).

(** Lines 307-313. *)
Definition on_root (txt : TextFunctions) (n : XmlNode) (s : XSecSplineList) : result XSecSplineList :=
  if is_root_start n then
    svrs ← trimmed_attribute txt n "version";
    sinlog ← trimmed_attribute txt n "uselog";
    Ok (SetLogE s (atoi sinlog =? 1))
  else Ok s.

(** Lines 323-340. *)
Definition on_spline_start (txt : TextFunctions) (n : XmlNode) (l : LoadState) : result LoadState :=
  if is_start n "spline" then
    sname ← trimmed_attribute txt n "name";
    snkn ← trimmed_attribute txt n "nknots";
    let nk := atoi snkn in
    e ← new_double nk;
    x ← new_double nk;
    Ok {| val_type := val_type l; iknot := 0; nknots := nk; E := e; xsec := x;
          spline_name := sname |}
  else Ok l.

(** Assignments to the local variables. *)
Definition set_val_type (l : LoadState) (v : Z) : LoadState :=
  {| val_type := v; iknot := iknot l; nknots := nknots l; E := E l;
     xsec := xsec l; spline_name := spline_name l |}.

Definition set_E (l : LoadState) (b : buffer) : LoadState :=
  {| val_type := val_type l; iknot := iknot l; nknots := nknots l; E := b;
     xsec := xsec l; spline_name := spline_name l |}.

Definition set_xsec (l : LoadState) (b : buffer) : LoadState :=
  {| val_type := val_type l; iknot := iknot l; nknots := nknots l; E := E l;
     xsec := b; spline_name := spline_name l |}.

Definition next_knot (l : LoadState) : LoadState :=
  {| val_type := val_type l; iknot := iknot l + 1; nknots := nknots l;
     E := E l; xsec := xsec l; spline_name := spline_name l |}.

(** Lines 341-342. *)
Definition on_value_tag (n : XmlNode) (l : LoadState) : LoadState :=
  let l1 := if is_start n "E" then set_val_type l kKnotX else l in
  if is_start n "xsec" then set_val_type l1 kKnotY else l1.

(** Lines 344-347. *)
Definition on_text (txt : TextFunctions) (n : XmlNode) (l : LoadState) : result LoadState :=
  if String.eqb (node_name n) "#text" && (node_depth n =? 4) then
    if val_type l =? kKnotX then
      e ← store_cell (E l) (iknot l) (atof txt (node_value n));
      Ok (set_E l e)
    else if val_type l =? kKnotY then
      x ← store_cell (xsec l) (iknot l) (atof txt (node_value n));
      Ok (set_xsec l x)
    else Ok l
  else Ok l.

(** Lines 348-350. *)
Definition on_knot_end (n : XmlNode) (l : LoadState) : LoadState :=
  if is_end n "knot" then next_knot l else l.

(** Lines 351-365. *)
Definition on_spline_end (n : XmlNode) (s : XSecSplineList) (l : LoadState)
    : result (XSecSplineList * LoadState) :=
  if is_end n "spline" then
    e ← read_cells (E l);
    x ← read_cells (xsec l);
    let spline := Spline_new (nknots l) e x in
    let s1 := with_map s (map_insert (spline_name l) spline (fSplineMap s)) in
    let s2 := with_init s1 ({[ spline_name l ]} ∪ fInitSet s1) in
    Ok (s2, set_xsec (set_E l None) None)
  else Ok (s, l).

(** One turn of the [while (ret == 1)] loop: it either goes on to the next
    read or returns from [LoadFromXml]. *)
Inductive flow : Type :=
  | Continue (s : XSecSplineList) (l : LoadState)
  | Return (status : XmlParserStatus_t) (s : XSecSplineList).

Definition load_node (txt : TextFunctions) (n : XmlNode) (s : XSecSplineList) (l : LoadState)
    : result flow :=
  if is_root_start n && negb (String.eqb (node_name n) root_name)
  then Ok (Return kXmlInvalidRoot s)
  else
    s1 ← on_root txt n s;
    l2 ← on_spline_start txt n l;
    l5 ← on_text txt n (on_value_tag n l2);
    '(s7, l7) ← on_spline_end n s1 (on_knot_end n l5);
    Ok (Continue s7 l7).

Fixpoint load_nodes (txt : TextFunctions) (ns : list XmlNode) (s : XSecSplineList) (l : LoadState)
    : result flow :=
  match ns with
  | [] => Ok (Continue s l)
  | n :: rest =>
    r ← load_node txt n s l;
    match r with
    | Continue s' l' => load_nodes txt rest s' l'
    | Return st s' => Ok (Return st s')
    end
  end.

(** [LoadFromXml].  When the reader cannot be created the function logs and
    falls through to the final [return kXmlOK]. *)
Definition LoadFromXml (txt : TextFunctions) (fs : FileSystem) (s : XSecSplineList)
    (filename : string) (keep : bool) : result (XmlParserStatus_t * XSecSplineList) :=
  let s0 := if keep then s else with_map s ∅ in
  match fs_files fs !! filename with
  | Some f =>
    r ← load_nodes txt (file_nodes f) s0 load_init;
    match r with
    | Return st s' => Ok (st, s')
    | Continue s' _ =>
      match file_end f with
      | ReadError => Ok (kXmlNotParsed, s')
      | EndOfDocument => Ok (kXmlOK, s')
      end
    end
  | None => Ok (kXmlOK, s0)
  end.

(** ** Documents and what the reader reports on them *)

#[local] Unset Elimination Schemes.
Inductive Xml : Type :=
  | XElement (name : string) (attrs : list (string * string)) (children : list Xml)
  | XText (text : string)
  | XWhitespace (text : string)
  | XComment (text : string).
#[local] Set Elimination Schemes.

(** The nodes of a document in reading order: an element with content is
    reported at its start tag (type 1) and at its end tag (type 15), its
    children one level deeper in between. *)
Fixpoint reader_nodes (depth : Z) (x : Xml) : list XmlNode :=
  match x with
  | XElement name attrs children =>
    mkNode name "" kNodeTypeStartElement depth attrs
      :: flat_map (reader_nodes (depth + 1)) children
      ++ [mkNode name "" kNodeTypeEndElement depth []]
  | XText text => [mkNode "#text" text 3 depth []]
  | XWhitespace text => [mkNode "#text" text 14 depth []]
  | XComment text => [mkNode "#comment" text 8 depth []]
  end.

Definition file_of_document (doc : list Xml) : XmlFile :=
  {| file_nodes := flat_map (reader_nodes 0) doc; file_end := EndOfDocument |}.

(** ** SaveAsXml *)

(** Modelled from the spec: [Spline::SaveAsXml] is not among the sources.
    The spec has each spline element carry the attributes [name] and [nknots]
    and contain [nknots] [knot] elements, each with an [E] child and an
    [xsec] child holding decimal text. *)
Definition Spline_SaveAsXml (txt : TextFunctions) (spl : Spline)
    (xtag ytag name : string) : Xml :=
  XElement "spline"
    [("name", name); ("nknots", fmt_int txt (NKnots_of spl))]
    ((λ k : R * R,
        XElement "knot" []
          [XElement xtag [] [XText (fmt_double txt k.1)];
           XElement ytag [] [XText (fmt_double txt k.2)]]) <$> Knots spl).

(** Lines 246-259: the entries written, in the order of the map. *)
Definition saved_entries (s : XSecSplineList) (save_init : bool) : list (string * Spline) :=
  filter (λ e, ¬ (e.1 ∈ fInitSet s ∧ save_init = false)) (sorted_entries (fSplineMap s)).

(** Lines 234-261: the document written to the stream. *)
Definition xml_document (txt : TextFunctions) (s : XSecSplineList) (save_init : bool) : list Xml :=
  [ XComment " generated by genie::XSecSplineList::SaveSplineList() ";
    XElement root_name
      [("version", "2.00"); ("uselog", if fUseLogE s then "1" else "0")]
      (XWhitespace (String "010" (String "010" EmptyString))
         :: ((λ e : string * Spline, Spline_SaveAsXml txt e.2 "E" "xsec" e.1)
               <$> saved_entries s save_init)) ].

(** [SaveAsXml] leaves the store alone; it returns without writing when the
    stream cannot be opened. *)
Definition SaveAsXml (txt : TextFunctions) (fs : FileSystem) (s : XSecSplineList)
    (filename : string) (save_init : bool) : FileSystem :=
  if fs_creatable fs filename
  then {| fs_files := <[filename := file_of_document (xml_document txt s save_init)]> (fs_files fs);
          fs_creatable := fs_creatable fs |}
  else fs.

(** ** The operations of the store, as one step function *)

Inductive Operation : Type :=
  | OpCreateSpline (alg : option XSecAlgorithmI) (interaction : option Interaction)
      (nknots : Z) (e_min e_max : R)
  | OpSetLogE (on : bool)
  | OpSetNKnots (nk : Z)
  | OpSetMinE (Ev : R)
  | OpSetMaxE (Ev : R)
  | OpSaveAsXml (fs : FileSystem) (filename : string) (save_init : bool)
  | OpLoadFromXml (fs : FileSystem) (filename : string) (keep : bool).

Definition run (txt : TextFunctions) (op : Operation) (s : XSecSplineList) : result XSecSplineList :=
  match op with
  | OpCreateSpline alg interaction nknots e_min e_max =>
    r ← CreateSpline s alg interaction nknots e_min e_max; Ok r.1
  | OpSetLogE on => Ok (SetLogE s on)
  | OpSetNKnots nk => Ok (SetNKnots s nk)
  | OpSetMinE Ev => Ok (SetMinE s Ev)
  | OpSetMaxE Ev => Ok (SetMaxE s Ev)
  | OpSaveAsXml _ _ _ => Ok s
  | OpLoadFromXml fs filename keep =>
    r ← LoadFromXml txt fs s filename keep; Ok r.2
  end.

Fixpoint run_all (txt : TextFunctions) (ops : list Operation) (s : XSecSplineList)
    : result XSecSplineList :=
  match ops with
  | [] => Ok s
  | op :: rest => s' ← run txt op s; run_all txt rest s'
  end.

(** ** Stores reached from the constructor *)

(** What the setters and the constructor maintain of the list values. *)
Definition valid_defaults (s : XSecSplineList) : Prop :=
  (0 < fEmin s)%R ∧ (0 < fEmax s)%R ∧ 10 <= fNKnots s.

(** The lists a program can hold: those the operations produce from the
    constructor. *)
Definition reachable (s : XSecSplineList) : Prop :=
  ∃ (txt : TextFunctions) (ops : list Operation),
    run_all txt ops XSecSplineList_ctor = Ok s.


(** ** Shapes of files *)

(** A node that can precede the root element: a comment, a processing
    instruction or a document type declaration at depth 0. *)
Definition prolog_node (n : XmlNode) : Prop :=
  node_depth n = 0 ∧ node_type n ≠ kNodeTypeStartElement
  ∧ node_type n ≠ kNodeTypeEndElement.

(** [root] is the root element of the file: the first element the reader
    reports, at depth 0, after the prolog. *)
Definition root_element (f : XmlFile) (root : XmlNode) (rest : list XmlNode) : Prop :=
  ∃ pre, file_nodes f = pre ++ root :: rest
         ∧ Forall prolog_node pre ∧ is_root_start root = true.

(** ** Auxiliary notions for the statements *)

Definition flow_store (r : flow) : XSecSplineList :=
  match r with
  | Continue s _ => s
  | Return _ s => s
  end.

(** The conditions under which [CreateSpline] runs to its end: arrays of
    positive size that hold every cell accessed, the assertion, and
    arithmetic that stays in the reals. *)
Definition CreateSpline_completes (s : XSecSplineList) (interaction : Interaction)
    (nknots : Z) (e_min e_max : R) : Prop :=
  let Emin := effective_emin s e_min in
  let Emax := effective_emax s e_max in
  let n := effective_nknots s nknots in
  0 < nknots ∧ (Emin < Emax)%R
  ∧ Z.max (knots_below_count (Threshold interaction) Emin) n <= nknots
  ∧ leaves_the_reals (fUseLogE s) n Emin Emax (Threshold interaction) = false.

(** What the loader makes of one entry that [SaveAsXml] has written: the key
    and every knot value go through the text functions. *)
Definition reread (txt : TextFunctions) (v : R) : R := atof txt (fmt_double txt v).

Definition reread_spline (txt : TextFunctions) (spl : Spline) : Spline :=
  Spline_new (NKnots_of spl) (reread txt <$> (Knots spl).*1)
    (reread txt <$> (Knots spl).*2).

Definition load_entry (txt : TextFunctions) (s : XSecSplineList) (e : string * Spline)
    : XSecSplineList :=
  let name := TrimSpaces txt e.1 in
  with_init (with_map s (map_insert name (reread_spline txt e.2) (fSplineMap s)))
    ({[ name ]} ∪ fInitSet s).

(** The written knot count of an entry reads back as itself. *)
Definition count_rereads (txt : TextFunctions) (e : string * Spline) : Prop :=
  atoi (TrimSpaces txt (fmt_int txt (NKnots_of e.2))) = NKnots_of e.2.

(** A node at which none of the tests of the loop body holds. *)
Definition inert (n : XmlNode) : bool :=
  negb (is_root_start n)
  && negb (String.eqb (node_name n) "spline")
  && negb (is_start n "E") && negb (is_start n "xsec")
  && negb (String.eqb (node_name n) "#text" && (node_depth n =? 4))
  && negb (is_end n "knot").

(** The nodes the reader reports for one [knot] element of a saved spline. *)
Definition knot_nodes (txt : TextFunctions) (k : R * R) : list XmlNode :=
  [ mkNode "knot" "" kNodeTypeStartElement 2 [];
    mkNode "E" "" kNodeTypeStartElement 3 [];
    mkNode "#text" (fmt_double txt k.1) 3 4 [];
    mkNode "E" "" kNodeTypeEndElement 3 [];
    mkNode "xsec" "" kNodeTypeStartElement 3 [];
    mkNode "#text" (fmt_double txt k.2) 3 4 [];
    mkNode "xsec" "" kNodeTypeEndElement 3 [];
    mkNode "knot" "" kNodeTypeEndElement 2 [] ].

(** ** Sample data for the examples *)

Definition trim_blanks (str : string) : string :=
  String.rev (skip_spaces (String.rev (skip_spaces str))).

(** Stand-ins for the external text functions: integers in decimal. *)
Definition sample_text : TextFunctions :=
  {| TrimSpaces := trim_blanks;
     atof := λ str, IZR (atoi str);
     fmt_int := pretty;
     fmt_double := λ _, "0" |}.

Definition sample_alg : XSecAlgorithmI :=
  {| Id := {| Name := "genie::QELXSec"; Config := "Default" |};
     Integral := λ i, Energy (ProbeP4 i) |}.

Definition sample_interaction : Interaction :=
  {| AsString := "nu:14;tgt:1000060120;N:2112;proc:Weak[CC],QES";
     Threshold := 6; ProbeMass := 0; ProbeP4 := mkP4 0 0 0 0 |}.

Definition sample_key : string :=
  "genie::QELXSec/Default/nu:14;tgt:1000060120;N:2112;proc:Weak[CC],QES".

Definition sample_knot (e x : string) : Xml :=
  XElement "knot" [] [XElement "E" [] [XText e]; XElement "xsec" [] [XText x]].

(** A spline file with one two-knot spline stored under [sample_key]. *)
Definition sample_document : list Xml :=
  [ XComment " a spline file ";
    XElement root_name [("version", "2.00"); ("uselog", "0")]
      [ XWhitespace " ";
        XElement "spline" [("name", sample_key); ("nknots", "2")]
          [sample_knot "1" "10"; sample_knot "2" "20"] ] ].

(** A spline file with one spline stored under another key. *)
Definition other_document : list Xml :=
  [ XElement root_name [("version", "2.00"); ("uselog", "1")]
      [ XElement "spline" [("name", "genie::DISXSec/Default/nu:14"); ("nknots", "1")]
          [sample_knot "3" "30"] ] ].

(** A document of another kind. *)
Definition foreign_document : list Xml :=
  [ XComment " not a spline file ";
    XElement "alg_conf" [] [XWhitespace " "] ].

Definition sample_fs : FileSystem :=
  {| fs_files := {[ "xsec.xml" := file_of_document sample_document;
                    "other.xml" := file_of_document other_document;
                    "conf.xml" := file_of_document foreign_document ]};
     fs_creatable := λ path, negb (String.eqb path "/no/such/dir/out.xml") |}.

Definition sample_spline : Spline := mkSpline [(1%R, 10%R); (2%R, 20%R)].

(** The store after loading [xsec.xml] into a fresh list. *)
Definition loaded_store : XSecSplineList :=
  {| fSplineMap := {[ sample_key := sample_spline ]};
     fInitSet := {[ sample_key ]};
     fUseLogE := false; fNKnots := 100; fEmin := (1 / 100)%R; fEmax := 100%R |}.

(** The store after loading [other.xml] into a fresh list. *)
Definition other_store : XSecSplineList :=
  {| fSplineMap := {[ "genie::DISXSec/Default/nu:14" := mkSpline [(3%R, 30%R)] ]};
     fInitSet := {[ "genie::DISXSec/Default/nu:14" ]};
     fUseLogE := true; fNKnots := 100; fEmin := (1 / 100)%R; fEmax := 100%R |}.

(** The store after loading [other.xml] into [loaded_store] with
    [keep = false]. *)
Definition reloaded_store : XSecSplineList :=
  {| fSplineMap := {[ "genie::DISXSec/Default/nu:14" := mkSpline [(3%R, 30%R)] ]};
     fInitSet := {[ "genie::DISXSec/Default/nu:14"; sample_key ]};
     fUseLogE := true; fNKnots := 100; fEmin := (1 / 100)%R; fEmax := 100%R |}.

(** The store after a fresh list has created the sample spline with ten
    knots between 1 and 11 GeV. *)
Definition created_store : XSecSplineList :=
  with_map XSecSplineList_ctor
    {[ sample_key :=
         (built_spline XSecSplineList_ctor sample_alg sample_interaction 10 1 11).1 ]}.

(** ** The look-ups by algorithm and interaction

    The overloads of [SplineExists] and [GetSpline] that build the key
    first (lines 81-86 and 98-103). *)
Definition SplineExistsFor (s : XSecSplineList)
    (alg : option XSecAlgorithmI) (interaction : option Interaction) : bool :=
  SplineExists s (BuildSplineKey alg interaction).

Definition GetSplineFor (s : XSecSplineList)
    (alg : option XSecAlgorithmI) (interaction : option Interaction) : option Spline :=
  GetSpline s (BuildSplineKey alg interaction).

(** The sample of the cross section at one energy: what the loop of lines
    181-193 stores in [xsec[i]] for [E[i] = e]. *)
Definition xsec_at (alg : XSecAlgorithmI) (interaction : Interaction) (e : R) : R :=
  Integral alg (SetProbeP4 interaction (probe_p4 (ProbeMass interaction) e)).

(** A file that stores another spline under [sample_key]. *)
Definition update_document : list Xml :=
  [ XElement root_name [("version", "2.00"); ("uselog", "1")]
      [ XElement "spline" [("name", sample_key); ("nknots", "1")]
          [sample_knot "5" "50"] ] ].

Definition update_fs : FileSystem :=
  {| fs_files := {[ "update.xml" := file_of_document update_document ]};
     fs_creatable := λ _, true |}.

(** ** Spline files as the loader reads them

    The elements [LoadFromXml] looks for: a root element with the attributes
    [version] and [uselog]; below it [spline] elements with the attributes
    [name] and [nknots]; in each, [knot] elements with an [E] and an [xsec]
    child, whose text nodes are then at depth 4. *)
Definition knot_element (e x : string) : Xml :=
  XElement "knot" [] [XElement "E" [] [XText e]; XElement "xsec" [] [XText x]].

Record SplineText : Type := mkSplineText {
  text_name  : string;
  text_count : string;
  text_knots : list (string * string) }.

Definition spline_element (e : SplineText) : Xml :=
  XElement "spline" [("name", text_name e); ("nknots", text_count e)]
    ((λ k : string * string, knot_element k.1 k.2) <$> text_knots e).

Definition spline_list_document (version uselog : string) (splines : list Xml) : list Xml :=
  [XElement root_name [("version", version); ("uselog", uselog)] splines].

(** The knot count a [spline] element declares, as line 332 reads it. *)
Definition declared_count (txt : TextFunctions) (e : SplineText) : Z :=
  atoi (TrimSpaces txt (text_count e)).

(** A [spline] element that declares, in a numeral that fits an [int], as
    many knots as it has. *)
Definition well_counted (txt : TextFunctions) (e : SplineText) : Prop :=
  fits_int (declared_count txt e)
  ∧ declared_count txt e = Z.of_nat (length (text_knots e)).

(** The spline whose knots are the texts of the [knot] elements, each read
    by [atof]. *)
Definition text_spline (txt : TextFunctions) (knots : list (string * string)) : Spline :=
  mkSpline ((λ k : string * string, (atof txt k.1, atof txt k.2)) <$> knots).

(** The effect of lines 351-365 for one [spline] element: stored under the
    trimmed name unless that key is taken, and the key marked. *)
Definition load_text_entry (txt : TextFunctions) (s : XSecSplineList) (e : SplineText)
    : XSecSplineList :=
  let name := TrimSpaces txt (text_name e) in
  with_init (with_map s (map_insert name (text_spline txt (text_knots e)) (fSplineMap s)))
    ({[ name ]} ∪ fInitSet s).

(** ** gSplinePlotter *)

(** [LoadSplines] (gSplinePlotter.cxx, lines 139-146): the status of the load
    is asserted to be [kXmlOK].  The call leaves [keep] to the default
    argument of the declaration, which stays a parameter here. *)
Definition LoadSplines (txt : TextFunctions) (fs : FileSystem) (splist : XSecSplineList)
    (gOptXMLFilename : string) (default_keep : bool) : result XSecSplineList :=
  r ← LoadFromXml txt fs splist gOptXMLFilename default_keep;
  match r.1 with
  | kXmlOK => Ok r.2
  | _ => Fault Aborted
  end.

(** The marker styles and colours of [SaveToPsFile] (lines 170-173). *)
Definition kNMarkers : Z := 5.
Definition kNColors  : Z := 6.
Definition markers : list Z := [20; 28; 29; 27; 3].
Definition colors  : list Z := [1; 2; 4; 6; 8; 28].

(** Lines 216-219: colour and marker of the [i]-th graph; [None] is a read
    outside the arrays. *)
Definition graph_style (i : Z) : option (Z * Z) :=
  let icol := Z.min (i mod kNColors) (kNColors - 1) in
  let isty := Z.min (i / kNMarkers) (kNMarkers - 1) in
  col ← colors !! Z.to_nat icol;
  sty ← markers !! Z.to_nat isty;
  Some (col, sty).

(** The lower end of the plotted range (line 118). *)
Definition kEmin : R := (1 / 100)%R.

(** The command-line parser of [utils::clap] either returns the value of an
    option or throws a [CmdLineArgParserException], which tells whether the
    option was on the command line. *)
Inductive Parsed (A : Type) : Type :=
  | Value (v : A)
  | Threw (ArgumentFound : bool).
Arguments Value {A} v.
Arguments Threw {A} ArgumentFound.

Record CommandLine : Type := mkCommandLine {
  arg_f : Parsed string;
  arg_p : Parsed Z;
  arg_t : Parsed Z;
  arg_e : Parsed R;
  arg_o : Parsed string }.

(** The globals of the program (lines 106-114). *)
Record Globals : Type := mkGlobals {
  gOptXMLFilename  : string;
  gOptROOTFilename : string;
  gOptNuEnergy     : R;
  gOptNuPdgCode    : Z;
  gOptTgtPdgCode   : Z;
  gEmin            : R;
  gEmax            : R }.

(** Static storage is zero-initialised. *)
Definition globals_at_start : Globals :=
  {| gOptXMLFilename := ""; gOptROOTFilename := ""; gOptNuEnergy := 0;
     gOptNuPdgCode := 0; gOptTgtPdgCode := 0; gEmin := 0; gEmax := 0 |}.

(** How a function of the program ends: it returns, calls [exit], or fails
    an assertion. *)
Inductive Outcome (A : Type) : Type :=
  | Returned (a : A)
  | Exited (code : Z)
  | AssertionFailed.
Arguments Returned {A} a.
Arguments Exited {A} code.
Arguments AssertionFailed {A}.

(** One [try]/[catch] block of [GetCommandLineArgs]: the value is assigned
    when the parser returns; when it throws and the option was not given,
    [missing] says what happens: [exit(1)] ([None]) or a default value. *)
Definition read_option {A : Type} (parsed : Parsed A) (current : A)
    (missing : option A) : Outcome A :=
  match parsed with
  | Value v => Returned v
  | Threw true => Returned current
  | Threw false =>
    match missing with
    | Some v => Returned v
    | None => Exited 1
    end
  end.

(** [GetCommandLineArgs] (lines 792-861). *)
Definition GetCommandLineArgs (g : Globals) (c : CommandLine) : Outcome Globals :=
  match read_option (arg_f c) (gOptXMLFilename g) None with
  | Returned f =>
    match read_option (arg_p c) (gOptNuPdgCode g) None with
    | Returned p =>
      match read_option (arg_t c) (gOptTgtPdgCode g) None with
      | Returned t =>
        match read_option (arg_e c) (gOptNuEnergy g) (Some 100%R) with
        | Returned e =>
          match read_option (arg_o c) (gOptROOTFilename g) (Some "") with
          | Returned o =>
            if Rlt_dec kEmin e
            then Returned {| gOptXMLFilename := f; gOptROOTFilename := o;
                             gOptNuEnergy := e; gOptNuPdgCode := p;
                             gOptTgtPdgCode := t; gEmin := kEmin; gEmax := e |}
            else AssertionFailed
          | Exited code => Exited code
          | AssertionFailed => AssertionFailed
          end
        | Exited code => Exited code
        | AssertionFailed => AssertionFailed
        end
      | Exited code => Exited code
      | AssertionFailed => AssertionFailed
      end
    | Exited code => Exited code
    | AssertionFailed => AssertionFailed
    end
  | Exited code => Exited code
  | AssertionFailed => AssertionFailed
  end.

(** ** Knots compared up to a tolerance *)



(** * Proofs *)

(** ** Deciding comparisons of reals in proofs *)

Ltac decide_reals :=
  repeat match goal with
  | |- context [Rlt_dec ?a ?b] => destruct (Rlt_dec a b); try lra
  | |- context [Rle_dec ?a ?b] => destruct (Rle_dec a b); try lra
  | |- context [@decide (Rlt ?a ?b) ?d] => destruct (@decide (Rlt a b) d); try lra
  | |- context [@decide (Rle ?a ?b) ?d] => destruct (@decide (Rle a b) d); try lra
  end.

Example sample_key_built :
  BuildSplineKey (Some sample_alg) (Some sample_interaction) = sample_key.
Proof. reflexivity. Qed.

Example load_sample :
  LoadFromXml sample_text sample_fs XSecSplineList_ctor "xsec.xml" true
  = Ok (kXmlOK, loaded_store).
Proof. vm_compute. reflexivity. Qed.

(** ** The key *)

(** C7.  [BuildSplineKey] joins the algorithm name, its configuration and the
    interaction string with [/]; it reads nothing else, so equal names,
    configurations and interaction strings give equal keys; a null algorithm
    or a null interaction gives the empty key. *)
Theorem BuildSplineKey_spec :
  (∀ (a : XSecAlgorithmI) (i : Interaction),
     BuildSplineKey (Some a) (Some i)
     = Name (Id a) +:+ "/" +:+ Config (Id a) +:+ "/" +:+ AsString i)
  ∧ (∀ (a a' : XSecAlgorithmI) (i i' : Interaction),
       Name (Id a) = Name (Id a') → Config (Id a) = Config (Id a') →
       AsString i = AsString i' →
       BuildSplineKey (Some a) (Some i) = BuildSplineKey (Some a') (Some i'))
  ∧ (∀ i : option Interaction, BuildSplineKey None i = "")
  ∧ (∀ a : option XSecAlgorithmI, BuildSplineKey a None = "").
Proof.
  split; [reflexivity|]. split.
  - intros a a' i i' Hn Hc Hs. simpl. by rewrite Hn, Hc, Hs.
  - split; [reflexivity|]. by intros [a|].
Qed.

Lemma BuildSplineKey_spec_witness :
  BuildSplineKey (Some sample_alg) (Some sample_interaction) = sample_key
  ∧ BuildSplineKey (Some sample_alg) (Some (SetProbeP4 sample_interaction (mkP4 0 0 1 1)))
    = BuildSplineKey (Some sample_alg) (Some sample_interaction)
  ∧ BuildSplineKey None (Some sample_interaction) = ""
  ∧ BuildSplineKey (Some sample_alg) None = "".
Proof.
  destruct BuildSplineKey_spec as (Hkey & Hdet & Halg & Hint).
  split; [rewrite Hkey; reflexivity|].
  split; [apply Hdet; reflexivity|].
  split; [apply Halg | apply Hint].
Defined.

(** ** The setters *)

(** C8.  After [SetNKnots(n)] the default knot count is 10 when [n < 10] and
    [n] when [n >= 10]. *)
Theorem SetNKnots_floor (s : XSecSplineList) (n : Z) :
  (n < 10 → fNKnots (SetNKnots s n) = 10)
  ∧ (10 <= n → fNKnots (SetNKnots s n) = n).
Proof.
  unfold SetNKnots; simpl. split; intros Hn.
  - by rewrite (proj2 (Z.ltb_lt n 10) Hn).
  - by rewrite (proj2 (Z.ltb_ge n 10) Hn).
Qed.

Lemma SetNKnots_floor_witness :
  fNKnots (SetNKnots XSecSplineList_ctor 3) = 10
  ∧ fNKnots (SetNKnots XSecSplineList_ctor 20) = 20.
Proof.
  split.
  - apply (proj1 (SetNKnots_floor XSecSplineList_ctor 3)). lia.
  - apply (proj2 (SetNKnots_floor XSecSplineList_ctor 20)). lia.
Defined.

Lemma setters_valid_defaults (s : XSecSplineList) :
  valid_defaults s →
  (∀ on, valid_defaults (SetLogE s on))
  ∧ (∀ nk, valid_defaults (SetNKnots s nk))
  ∧ (∀ Ev, valid_defaults (SetMinE s Ev))
  ∧ (∀ Ev, valid_defaults (SetMaxE s Ev)).
Proof.
  intros (Hmin & Hmax & Hn). unfold valid_defaults. repeat split; simpl; try done.
  - destruct (Z.ltb_spec nk 10); lia.
  - by destruct (Rlt_dec 0 Ev).
  - by destruct (Rlt_dec 0 Ev).
Qed.

Lemma ctor_valid_defaults : valid_defaults XSecSplineList_ctor.
Proof. unfold valid_defaults; simpl. split; [lra|]. split; [lra|lia]. Qed.

(** ** The loader, node by node *)

Lemma load_nodes_app (txt : TextFunctions) (ns1 ns2 : list XmlNode)
    (s : XSecSplineList) (l : LoadState) :
  load_nodes txt (ns1 ++ ns2) s l
  = r ← load_nodes txt ns1 s l;
    match r with
    | Continue s' l' => load_nodes txt ns2 s' l'
    | Return st s' => Ok (Return st s')
    end.
Proof.
  revert s l. induction ns1 as [|n ns1 IH]; intros s l; simpl; [done|].
  destruct (load_node txt n s l) as [[s' l'|st s']|f]; simpl; [apply IH|done|done].
Qed.

(** The nodes of the prolog are skipped. *)
Lemma load_node_prolog (txt : TextFunctions) (n : XmlNode)
    (s : XSecSplineList) (l : LoadState) :
  prolog_node n → load_node txt n s l = Ok (Continue s l).
Proof.
  intros (Hd & Hs & He).
  assert (Hst : (node_type n =? kNodeTypeStartElement) = false) by by apply Z.eqb_neq.
  assert (Hen : (node_type n =? kNodeTypeEndElement) = false) by by apply Z.eqb_neq.
  unfold load_node, on_root, on_spline_start, on_text, on_value_tag,
    on_knot_end, on_spline_end, is_root_start, is_start, is_end.
  by rewrite Hst, Hen, Hd, !andb_false_r.
Qed.

Lemma load_nodes_prolog (txt : TextFunctions) (pre rest : list XmlNode)
    (s : XSecSplineList) (l : LoadState) :
  Forall prolog_node pre →
  load_nodes txt (pre ++ rest) s l = load_nodes txt rest s l.
Proof.
  induction 1 as [|n pre Hn _ IH]; simpl; [done|].
  by rewrite (load_node_prolog txt n s l Hn).
Qed.

(** Inversion of one turn of the loop. *)
Lemma load_node_inv (txt : TextFunctions) (n : XmlNode)
    (s : XSecSplineList) (l : LoadState) (r : flow) :
  load_node txt n s l = Ok r →
  (r = Return kXmlInvalidRoot s ∧ is_root_start n = true
     ∧ node_name n ≠ root_name)
  ∨ (∃ s1 l6 s7 l7, r = Continue s7 l7
       ∧ on_root txt n s = Ok s1
       ∧ on_spline_end n s1 l6 = Ok (s7, l7)).
Proof.
  unfold load_node.
  destruct (is_root_start n && negb (String.eqb (node_name n) root_name)) eqn:Hroot.
  - intros [= <-]. left. apply andb_true_iff in Hroot as [Hr Hne].
    split; [done|]. split; [done|].
    intros Heq. rewrite Heq in Hne. by rewrite String.eqb_refl in Hne.
  - destruct (on_root txt n s) as [s1|]; simpl; [|done].
    destruct (on_spline_start txt n l) as [l2|]; simpl; [|done].
    destruct (on_text txt n (on_value_tag n l2)) as [l5|]; simpl; [|done].
    destruct (on_spline_end n s1 (on_knot_end n l5)) as [[s7 l7]|] eqn:Hend;
      simpl; [|done].
    intros [= <-]. right. by exists s1, (on_knot_end n l5), s7, l7.
Qed.

Lemma on_root_inv (txt : TextFunctions) (n : XmlNode) (s s1 : XSecSplineList) :
  on_root txt n s = Ok s1 →
  (is_root_start n = false ∧ s1 = s)
  ∨ (is_root_start n = true
     ∧ ∃ v, GetAttribute (node_attrs n) "uselog" = Some v
            ∧ s1 = SetLogE s (atoi (TrimSpaces txt v) =? 1)).
Proof.
  unfold on_root, trimmed_attribute. destruct (is_root_start n).
  - destruct (GetAttribute (node_attrs n) "version"); simpl; [|done].
    destruct (GetAttribute (node_attrs n) "uselog") as [v|]; simpl; [|done].
    intros [= <-]. right. split; [done|]. by exists v.
  - intros [= <-]. by left.
Qed.

Lemma on_spline_end_inv (n : XmlNode) (s s7 : XSecSplineList) (l l7 : LoadState) :
  on_spline_end n s l = Ok (s7, l7) →
  s7 = s
  ∨ ∃ spl, s7 = with_init (with_map s (map_insert (spline_name l) spl (fSplineMap s)))
                  ({[ spline_name l ]} ∪ fInitSet s).
Proof.
  unfold on_spline_end. destruct (is_end n "spline").
  - destruct (read_cells (E l)) as [e|]; simpl; [|done].
    destruct (read_cells (xsec l)) as [x|]; simpl; [|done].
    intros [= <- <-]. right. by eexists.
  - intros [= <- <-]. by left.
Qed.

(** ** The initial set only grows *)

Lemma load_node_init_set (txt : TextFunctions) (n : XmlNode)
    (s : XSecSplineList) (l : LoadState) (r : flow) :
  load_node txt n s l = Ok r → fInitSet s ⊆ fInitSet (flow_store r).
Proof.
  intros H. apply load_node_inv in H as [(-> & _)|(s1 & l6 & s7 & l7 & -> & Hr & He)];
    simpl; [done|].
  apply on_root_inv in Hr as [[_ ->]|(_ & v & _ & ->)];
    apply on_spline_end_inv in He as [->|[spl ->]]; simpl; set_solver.
Qed.

Lemma load_nodes_init_set (txt : TextFunctions) (ns : list XmlNode)
    (s : XSecSplineList) (l : LoadState) (r : flow) :
  load_nodes txt ns s l = Ok r → fInitSet s ⊆ fInitSet (flow_store r).
Proof.
  revert s l. induction ns as [|n ns IH]; intros s l; simpl.
  - by intros [= <-].
  - destruct (load_node txt n s l) as [r1|] eqn:Hn; simpl; [|done].
    apply load_node_init_set in Hn. destruct r1 as [s' l'|st s']; simpl in *.
    + intros H. apply IH in H. set_solver.
    + by intros [= <-].
Qed.

Lemma LoadFromXml_init_set (txt : TextFunctions) (fs : FileSystem)
    (s s' : XSecSplineList) (filename : string) (keep : bool) (st : XmlParserStatus_t) :
  LoadFromXml txt fs s filename keep = Ok (st, s') → fInitSet s ⊆ fInitSet s'.
Proof.
  unfold LoadFromXml.
  assert (Hs0 : fInitSet (if keep then s else with_map s ∅) = fInitSet s)
    by by destruct keep.
  destruct (fs_files fs !! filename) as [f|].
  - destruct (load_nodes txt (file_nodes f) _ load_init) as [r|] eqn:Hl; simpl; [|done].
    apply load_nodes_init_set in Hl. rewrite Hs0 in Hl.
    destruct r as [s1 l1|st1 s1]; simpl in *.
    + destruct (file_end f); by intros [= _ <-].
    + by intros [= _ <-].
  - intros [= _ <-]. by rewrite Hs0.
Qed.

Example reload_other :
  LoadFromXml sample_text sample_fs loaded_store "other.xml" false
  = Ok (kXmlOK, reloaded_store).
Proof. vm_compute. reflexivity. Qed.

(** ** Files that cannot be opened *)

(** C2, as the code has it.  When the reader cannot be created the call
    returns; with [keep = true] the store is untouched, with [keep = false]
    the spline map has been cleared and everything else is untouched. *)
Theorem LoadFromXml_unopened (txt : TextFunctions) (fs : FileSystem)
    (s : XSecSplineList) (filename : string) (keep : bool) :
  fs_files fs !! filename = None →
  ∃ st s', LoadFromXml txt fs s filename keep = Ok (st, s')
    ∧ (keep = true → s' = s)
    ∧ (keep = false →
         fSplineMap s' = ∅ ∧ fInitSet s' = fInitSet s ∧ fUseLogE s' = fUseLogE s
         ∧ fNKnots s' = fNKnots s ∧ fEmin s' = fEmin s ∧ fEmax s' = fEmax s).
Proof.
  intros Hnone. unfold LoadFromXml. rewrite Hnone.
  eexists _, _. split; [reflexivity|]. split; intros ->; simpl; done.
Qed.

Lemma LoadFromXml_unopened_witness :
  ∃ st s', LoadFromXml sample_text sample_fs loaded_store "missing.xml" false
           = Ok (st, s')
    ∧ fSplineMap s' = ∅ ∧ fInitSet s' = fInitSet loaded_store.
Proof.
  destruct (LoadFromXml_unopened sample_text sample_fs loaded_store "missing.xml" false)
    as (st & s' & Hload & _ & Hclear); [reflexivity|].
  exists st, s'. split; [exact Hload|].
  destruct (Hclear eq_refl) as (Hmap & Hinit & _). by split.
Defined.

(** C2 fails as stated: the list has loaded [xsec.xml]; on a file that
    cannot be opened the status is [kXmlOK], and with [keep = false] the
    spline that was in the store is gone. *)
Lemma LoadFromXml_unopened_counterexample :
  fs_files sample_fs !! "missing.xml" = None
  ∧ LoadFromXml sample_text sample_fs XSecSplineList_ctor "xsec.xml" true
    = Ok (kXmlOK, loaded_store)
  ∧ fSplineMap loaded_store !! sample_key = Some sample_spline
  ∧ LoadFromXml sample_text sample_fs loaded_store "missing.xml" true
    = Ok (kXmlOK, loaded_store)
  ∧ LoadFromXml sample_text sample_fs loaded_store "missing.xml" false
    = Ok (kXmlOK, with_map loaded_store ∅)
  ∧ fSplineMap (with_map loaded_store ∅) !! sample_key = None.
Proof. repeat split; vm_compute; reflexivity. Qed.

(** ** Files with another root element *)

(** C5.  On a file whose root element has another name [LoadFromXml] returns
    [kXmlInvalidRoot]; with [keep = true] the store is as before, with
    [keep = false] its spline map is empty. *)
Theorem LoadFromXml_invalid_root (txt : TextFunctions) (fs : FileSystem)
    (s : XSecSplineList) (filename : string) (keep : bool)
    (f : XmlFile) (root : XmlNode) (rest : list XmlNode) :
  fs_files fs !! filename = Some f →
  root_element f root rest →
  node_name root ≠ root_name →
  ∃ s', LoadFromXml txt fs s filename keep = Ok (kXmlInvalidRoot, s')
    ∧ (keep = true → s' = s)
    ∧ (keep = false → fSplineMap s' = ∅).
Proof.
  intros Hf (pre & Hnodes & Hpre & Hroot) Hname.
  unfold LoadFromXml. rewrite Hf, Hnodes, load_nodes_prolog by done. simpl.
  unfold load_node. rewrite Hroot.
  apply String.eqb_neq in Hname. rewrite Hname. simpl.
  eexists. split; [reflexivity|]. split; intros ->; done.
Qed.

Lemma LoadFromXml_invalid_root_witness :
  ∃ s', LoadFromXml sample_text sample_fs loaded_store "conf.xml" false
        = Ok (kXmlInvalidRoot, s')
    ∧ fSplineMap s' = ∅.
Proof.
  destruct (LoadFromXml_invalid_root sample_text sample_fs loaded_store "conf.xml"
              false (file_of_document foreign_document)
              (mkNode "alg_conf" "" kNodeTypeStartElement 0 [])
              [mkNode "#text" " " 14 1 []; mkNode "alg_conf" "" kNodeTypeEndElement 0 []])
    as (s' & Hload & _ & Hclear).
  - reflexivity.
  - exists [mkNode "#comment" " not a spline file " 8 0 []].
    split; [reflexivity|]. split; [|reflexivity].
    constructor; [|constructor]. repeat split; vm_compute; congruence.
  - vm_compute; congruence.
  - exists s'. split; [exact Hload | exact (Hclear eq_refl)].
Defined.

(** ** The use-log flag after a load *)

Lemma load_node_flag (txt : TextFunctions) (n : XmlNode)
    (s : XSecSplineList) (l : LoadState) (r : flow) :
  is_root_start n = false →
  load_node txt n s l = Ok r → fUseLogE (flow_store r) = fUseLogE s.
Proof.
  intros Hn H.
  apply load_node_inv in H as [(-> & _)|(s1 & l6 & s7 & l7 & -> & Hr & He)];
    simpl; [done|].
  apply on_root_inv in Hr as [[_ ->]|(Hn' & _)]; [|congruence].
  by apply on_spline_end_inv in He as [->|[spl ->]].
Qed.

Lemma load_nodes_flag (txt : TextFunctions) (ns : list XmlNode)
    (s : XSecSplineList) (l : LoadState) (r : flow) :
  Forall (λ n, is_root_start n = false) ns →
  load_nodes txt ns s l = Ok r → fUseLogE (flow_store r) = fUseLogE s.
Proof.
  intros Hns. revert s l. induction Hns as [|n ns Hn _ IH]; intros s l; simpl.
  - by intros [= <-].
  - destruct (load_node txt n s l) as [r1|] eqn:H1; simpl; [|done].
    apply load_node_flag in H1; [|done]. destruct r1 as [s' l'|st s']; simpl in *.
    + intros H. apply IH in H. congruence.
    + by intros [= <-].
Qed.

(** C9.  A load of a file with the right root element, whose [uselog]
    attribute holds a numeral that fits an [int], leaves the use-log flag
    equal to "the [uselog] attribute of the root reads as 1", whatever the
    flag was and whether or not the existing splines were kept. *)
Theorem LoadFromXml_sets_uselog (txt : TextFunctions) (fs : FileSystem)
    (s s' : XSecSplineList) (filename : string) (keep : bool)
    (f : XmlFile) (root : XmlNode) (rest : list XmlNode) (v : string)
    (st : XmlParserStatus_t) :
  fs_files fs !! filename = Some f →
  root_element f root rest →
  Forall (λ n, is_root_start n = false) rest →
  node_name root = root_name →
  GetAttribute (node_attrs root) "uselog" = Some v →
  fits_int (atoi (TrimSpaces txt v)) →
  LoadFromXml txt fs s filename keep = Ok (st, s') →
  fUseLogE s' = (atoi (TrimSpaces txt v) =? 1).
Proof.
  intros Hf (pre & Hnodes & Hpre & Hroot) Hrest Hname Hv _.
  unfold LoadFromXml. rewrite Hf, Hnodes, load_nodes_prolog by done. simpl.
  destruct (load_node txt root _ load_init) as [r|] eqn:Hr; simpl; [|done].
  apply load_node_inv in Hr as [(_ & _ & Hne)|(s1 & l6 & s7 & l7 & -> & Hr & He)];
    [done|].
  apply on_root_inv in Hr as [[Hno _]|(_ & v' & Hv' & ->)]; [congruence|].
  assert (v' = v) as -> by congruence.
  assert (Hflag : fUseLogE s7 = (atoi (TrimSpaces txt v) =? 1))
    by by apply on_spline_end_inv in He as [->|[spl ->]].
  destruct (load_nodes txt rest s7 l7) as [r|] eqn:Hl; simpl; [|done].
  apply load_nodes_flag in Hl; [|done].
  destruct r as [s2 l2|st2 s2]; simpl in *.
  - destruct (file_end f); intros [= _ <-]; congruence.
  - intros [= _ <-]; congruence.
Qed.

Lemma LoadFromXml_sets_uselog_witness :
  fUseLogE XSecSplineList_ctor = true
  ∧ LoadFromXml sample_text sample_fs XSecSplineList_ctor "xsec.xml" true
    = Ok (kXmlOK, loaded_store)
  ∧ fUseLogE loaded_store = (atoi (TrimSpaces sample_text "0") =? 1).
Proof.
  split; [reflexivity|]. split; [apply load_sample|].
  apply (LoadFromXml_sets_uselog sample_text sample_fs XSecSplineList_ctor
           loaded_store "xsec.xml" true (file_of_document sample_document)
           (mkNode root_name "" kNodeTypeStartElement 0
              [("version", "2.00"); ("uselog", "0")])
           (tail (tail (file_nodes (file_of_document sample_document))))
           "0" kXmlOK).
  - reflexivity.
  - exists [mkNode "#comment" " a spline file " 8 0 []].
    split; [reflexivity|]. split; [|reflexivity].
    constructor; [|constructor]. repeat split; vm_compute; congruence.
  - vm_compute. repeat constructor.
  - reflexivity.
  - reflexivity.
  - split; vm_compute; discriminate.
  - vm_compute. reflexivity.
Defined.

(** ** CreateSpline: when it completes and what it stores *)

Lemma CreateSpline_Ok (s : XSecSplineList) (a : XSecAlgorithmI) (i : Interaction)
    (nknots : Z) (e_min e_max : R) :
  CreateSpline_completes s i nknots e_min e_max →
  CreateSpline s (Some a) (Some i) nknots e_min e_max
  = Ok (with_map s (map_insert (BuildSplineKey (Some a) (Some i))
                      (built_spline s a i nknots e_min e_max).1 (fSplineMap s)),
        (built_spline s a i nknots e_min e_max).2).
Proof.
  intros (Hcap & Hlt & Hfit & Hreal). unfold CreateSpline.
  rewrite (proj2 (Z.leb_gt nknots 0)) by lia.
  destruct (Rlt_dec _ _) as [_|Hn]; [|done].
  rewrite (proj2 (Z.ltb_ge nknots _)) by lia.
  rewrite Hreal. by destruct (built_spline s a i nknots e_min e_max).
Qed.

Lemma CreateSpline_inv (s s' : XSecSplineList) (alg : option XSecAlgorithmI)
    (interaction : option Interaction) (i' : Interaction)
    (nknots : Z) (e_min e_max : R) :
  CreateSpline s alg interaction nknots e_min e_max = Ok (s', i') →
  ∃ a i, alg = Some a ∧ interaction = Some i
    ∧ CreateSpline_completes s i nknots e_min e_max
    ∧ s' = with_map s (map_insert (BuildSplineKey alg interaction)
                         (built_spline s a i nknots e_min e_max).1 (fSplineMap s))
    ∧ i' = (built_spline s a i nknots e_min e_max).2.
Proof.
  unfold CreateSpline. destruct alg as [a|], interaction as [i|]; try done.
  destruct (Z.leb_spec nknots 0) as [|Hcap]; [done|].
  destruct (Rlt_dec _ _) as [Hlt|]; [|done].
  destruct (Z.ltb_spec nknots
              (Z.max (knots_below_count (Threshold i) (effective_emin s e_min))
                     (effective_nknots s nknots))) as [|Hfit]; [done|].
  destruct (leaves_the_reals _ _ _ _ _) eqn:Hreal; [done|].
  destruct (built_spline s a i nknots e_min e_max) as [spl i2] eqn:Hb.
  intros [= <- <-]. exists a, i. rewrite Hb. by repeat split.
Qed.

Lemma integrate_interaction (alg : XSecAlgorithmI) (pr_mass : R)
    (i : Interaction) (E : list R) :
  AsString (integrate alg pr_mass i E).2 = AsString i
  ∧ Threshold (integrate alg pr_mass i E).2 = Threshold i
  ∧ ProbeMass (integrate alg pr_mass i E).2 = ProbeMass i.
Proof.
  revert i. induction E as [|e E IH]; intros i; simpl; [done|].
  specialize (IH (SetProbeP4 i (probe_p4 pr_mass e))).
  destruct (integrate alg pr_mass (SetProbeP4 i (probe_p4 pr_mass e)) E); simpl in *.
  done.
Qed.

Lemma integrate_length (alg : XSecAlgorithmI) (pr_mass : R)
    (i : Interaction) (E : list R) :
  length (integrate alg pr_mass i E).1 = length E.
Proof.
  revert i. induction E as [|e E IH]; intros i; simpl; [done|].
  specialize (IH (SetProbeP4 i (probe_p4 pr_mass e))).
  destruct (integrate alg pr_mass (SetProbeP4 i (probe_p4 pr_mass e)) E); simpl in *.
  by rewrite IH.
Qed.

Lemma built_spline_interaction (s : XSecSplineList) (a : XSecAlgorithmI)
    (i : Interaction) (nknots : Z) (e_min e_max : R) :
  AsString (built_spline s a i nknots e_min e_max).2 = AsString i
  ∧ Threshold (built_spline s a i nknots e_min e_max).2 = Threshold i
  ∧ ProbeMass (built_spline s a i nknots e_min e_max).2 = ProbeMass i.
Proof.
  unfold built_spline.
  pose proof (integrate_interaction a (ProbeMass i) i
    (take (Z.to_nat (effective_nknots s nknots))
       (planned_knots s i nknots e_min e_max))) as H.
  by destruct (integrate _ _ _ _).
Qed.

(** The energies of the spline that is built are the planned ones. *)
Lemma built_spline_energies (s : XSecSplineList) (a : XSecAlgorithmI)
    (i : Interaction) (nknots : Z) (e_min e_max : R) :
  (Knots (built_spline s a i nknots e_min e_max).1).*1
  = take (Z.to_nat (effective_nknots s nknots)) (planned_knots s i nknots e_min e_max).
Proof.
  unfold built_spline.
  pose proof (integrate_length a (ProbeMass i) i
    (take (Z.to_nat (effective_nknots s nknots))
       (planned_knots s i nknots e_min e_max))) as H.
  destruct (integrate _ _ _ _) as [xs i2]. simpl in *.
  rewrite fst_zip; [done|]. rewrite !length_take, H, length_take. lia.
Qed.

Lemma map_insert_present (k : string) (v : Spline) (m : gmap string Spline) :
  is_Some (m !! k) → map_insert k v m = m.
Proof. intros [w Hw]. unfold map_insert. by rewrite Hw. Qed.

Lemma map_insert_lookup (k : string) (v : Spline) (m : gmap string Spline) :
  is_Some (map_insert k v m !! k).
Proof.
  unfold map_insert. destruct (m !! k) eqn:Hk; [by rewrite Hk|].
  rewrite lookup_insert_eq. done.
Qed.

Lemma with_map_same (s : XSecSplineList) : with_map s (fSplineMap s) = s.
Proof. by destruct s. Qed.

(** ** Creating the same spline twice *)

(** C1, as the code has it.  When a call of [CreateSpline] has completed, a
    second call with the same arguments completes and leaves the store as
    the first call left it: the key keeps the spline it had, the spline
    built by the second call is not stored, and the number of keys is
    unchanged. *)
Theorem CreateSpline_twice (s s1 : XSecSplineList) (alg : option XSecAlgorithmI)
    (interaction : option Interaction) (i1 : Interaction)
    (nknots : Z) (e_min e_max : R) :
  CreateSpline s alg interaction nknots e_min e_max = Ok (s1, i1) →
  ∃ s2 i2,
    CreateSpline s1 alg (Some i1) nknots e_min e_max = Ok (s2, i2)
    ∧ BuildSplineKey alg (Some i1) = BuildSplineKey alg interaction
    ∧ is_Some (fSplineMap s1 !! BuildSplineKey alg interaction)
    ∧ fSplineMap s2 !! BuildSplineKey alg interaction
      = fSplineMap s1 !! BuildSplineKey alg interaction
    ∧ size (fSplineMap s2) = size (fSplineMap s1)
    ∧ s2 = s1.
Proof.
  intros H. apply CreateSpline_inv in H as (a & i & -> & -> & Hc & -> & ->).
  destruct (built_spline_interaction s a i nknots e_min e_max) as (Hs & Ht & Hm).
  set (i1 := (built_spline s a i nknots e_min e_max).2) in *.
  set (key := BuildSplineKey (Some a) (Some i)).
  set (s1 := with_map s _).
  assert (Hkey : BuildSplineKey (Some a) (Some i1) = key)
    by (unfold key; simpl; by rewrite Hs).
  assert (Hin : is_Some (fSplineMap s1 !! key)) by apply map_insert_lookup.
  assert (Hc1 : CreateSpline_completes s1 i1 nknots e_min e_max).
  { unfold CreateSpline_completes in *. rewrite Ht. exact Hc. }
  exists s1, (built_spline s1 a i1 nknots e_min e_max).2.
  split; [|done].
  rewrite (CreateSpline_Ok s1 a i1 nknots e_min e_max Hc1), Hkey.
  by rewrite (map_insert_present key _ _ Hin), with_map_same.
Qed.

(** ** The list values stay valid *)

Lemma load_node_defaults (txt : TextFunctions) (n : XmlNode)
    (s : XSecSplineList) (l : LoadState) (r : flow) :
  load_node txt n s l = Ok r →
  fNKnots (flow_store r) = fNKnots s ∧ fEmin (flow_store r) = fEmin s
  ∧ fEmax (flow_store r) = fEmax s.
Proof.
  intros H. apply load_node_inv in H as [(-> & _)|(s1 & l6 & s7 & l7 & -> & Hr & He)];
    simpl; [done|].
  apply on_root_inv in Hr as [[_ ->]|(_ & v & _ & ->)];
    by apply on_spline_end_inv in He as [->|[spl ->]].
Qed.

Lemma load_nodes_defaults (txt : TextFunctions) (ns : list XmlNode)
    (s : XSecSplineList) (l : LoadState) (r : flow) :
  load_nodes txt ns s l = Ok r →
  fNKnots (flow_store r) = fNKnots s ∧ fEmin (flow_store r) = fEmin s
  ∧ fEmax (flow_store r) = fEmax s.
Proof.
  revert s l. induction ns as [|n ns IH]; intros s l; simpl.
  - by intros [= <-].
  - destruct (load_node txt n s l) as [r1|] eqn:Hn; simpl; [|done].
    apply load_node_defaults in Hn as (H1 & H2 & H3).
    destruct r1 as [s' l'|st s']; simpl in *.
    + intros H. apply IH in H as (H4 & H5 & H6). repeat split; congruence.
    + by intros [= <-].
Qed.

(** Every operation keeps the list values valid: positive energy bounds and
    at least ten knots. *)
Lemma run_valid_defaults (txt : TextFunctions) (op : Operation) (s s' : XSecSplineList) :
  valid_defaults s → run txt op s = Ok s' → valid_defaults s'.
Proof.
  intros Hv.
  destruct op as [alg interaction nk e_min e_max|on|nk|Ev|Ev|fs filename save_init|fs filename keep];
    simpl; try (intros [= <-]; by apply setters_valid_defaults).
  - destruct (CreateSpline s alg interaction nk e_min e_max) as [[s1 i1]|] eqn:Hc;
      simpl; [|done].
    intros [= <-]. by apply CreateSpline_inv in Hc as (a & i & _ & _ & _ & -> & _).
  - by intros [= <-].
  - unfold LoadFromXml.
    assert (Hv0 : valid_defaults (if keep then s else with_map s ∅)) by by destruct keep.
    destruct (fs_files fs !! filename) as [f|]; simpl.
    + destruct (load_nodes txt (file_nodes f) _ load_init) as [r|] eqn:Hl; simpl; [|done].
      apply load_nodes_defaults in Hl as (H1 & H2 & H3).
      assert (Hr : valid_defaults (flow_store r)).
      { unfold valid_defaults in *. by rewrite H1, H2, H3. }
      destruct r as [s1 l1|st1 s1]; simpl in *.
      * destruct (file_end f); by intros [= <-].
      * by intros [= <-].
    + by intros [= <-].
Qed.

Lemma run_all_valid_defaults (txt : TextFunctions) (ops : list Operation)
    (s s' : XSecSplineList) :
  valid_defaults s → run_all txt ops s = Ok s' → valid_defaults s'.
Proof.
  revert s. induction ops as [|op ops IH]; intros s Hv; simpl.
  - by intros [= <-].
  - destruct (run txt op s) as [s1|] eqn:Hop; simpl; [|done].
    apply IH. by apply (run_valid_defaults txt op s).
Qed.

Lemma reachable_valid_defaults (s : XSecSplineList) :
  reachable s → valid_defaults s.
Proof.
  intros (txt & ops & Hrun).
  exact (run_all_valid_defaults txt ops _ s ctor_valid_defaults Hrun).
Qed.

Lemma reachable_ctor : reachable XSecSplineList_ctor.
Proof. by exists sample_text, []. Qed.

(** ** The knot planner *)






Lemma filter_Forall_none {A} (P : A → Prop) `{!∀ x, Decision (P x)} (l : list A) :
  Forall (λ x, ¬ P x) l → filter P l = [].
Proof.
  induction 1 as [|x l Hx _ IH]; [done|].
  by rewrite filter_cons_False, IH.
Qed.

Lemma length_knots_below (nkb : Z) (e d : R) :
  length (knots_below nkb e d) = Z.to_nat nkb.
Proof. unfold knots_below. by rewrite length_fmap, length_seqZ. Qed.

Lemma length_knots_above (uselog : bool) (nka : Z) (E0 d : R) :
  length (knots_above uselog nka E0 d) = Z.to_nat nka.
Proof. unfold knots_above. by rewrite length_fmap, length_seqZ. Qed.

Lemma knots_below_lookup (nkb : Z) (e d : R) (k : nat) :
  Z.of_nat k < nkb →
  knots_below nkb e d !! k = Some (e + INR k * d)%R.
Proof.
  intros Hk. unfold knots_below.
  rewrite list_lookup_fmap, lookup_seqZ_lt by done. simpl.
  by rewrite INR_IZR_INZ.
Qed.

(** Below the threshold every planned knot is smaller than the threshold. *)
Lemma knots_below_lt (Emin Ethr : R) :
  (Emin < Ethr)%R →
  Forall (λ e, (e < Ethr)%R) (knots_below 5 Emin ((Ethr - Emin) / 5)).
Proof.
  intros Hlt. unfold knots_below. apply Forall_fmap, Forall_seqZ.
  intros j Hj. simpl.
  assert (IZR j <= 4)%R by (apply IZR_le; lia).
  assert (0 <= IZR j)%R by (apply IZR_le; lia).
  nra.
Qed.

Lemma effective_emin_nonneg (s : XSecSplineList) (e_min : R) :
  valid_defaults s → (0 <= effective_emin s e_min)%R.
Proof.
  intros (Hmin & _). unfold effective_emin. destruct (Rlt_dec e_min 0); lra.
Qed.

(** With at least two knots from the threshold on, or none, the arithmetic
    of the planner stays in the reals. *)
Lemma stays_in_the_reals (uselog : bool) (n : Z) (Emin Emax Ethr : R) :
  n - knots_below_count Ethr Emin ≠ 1 →
  (uselog = true → 0 < Rmax Ethr Emin ∧ 0 < Emax)%R →
  leaves_the_reals uselog n Emin Emax Ethr = false.
Proof.
  intros Hn Hpos. unfold leaves_the_reals.
  apply andb_false_iff. right. apply orb_false_iff. split.
  - by apply Z.eqb_neq.
  - destruct uselog; [|done]. destruct (Hpos eq_refl) as [H0 Hmax]. simpl.
    apply orb_false_iff. split; apply bool_decide_eq_false; lra.
Qed.

Lemma effective_nknots_requested (s : XSecSplineList) (nknots : Z) :
  3 <= nknots → effective_nknots s nknots = nknots.
Proof. intros H. unfold effective_nknots. by rewrite (proj2 (Z.leb_gt nknots 2)) by lia. Qed.

Lemma knots_below_count_between (Ethr Emin : R) :
  (Emin < Ethr)%R → knots_below_count Ethr Emin = 5.
Proof. intros H. unfold knots_below_count. by destruct (Rlt_dec Emin Ethr). Qed.

(** The plan for a threshold between the bounds: five knots below, the
    others from the threshold on. *)
Lemma planned_knots_between (s : XSecSplineList) (i : Interaction)
    (nknots : Z) (e_min e_max : R) :
  (effective_emin s e_min < Threshold i)%R → 3 <= nknots →
  planned_knots s i nknots e_min e_max
  = knots_below 5 (effective_emin s e_min)
      ((Threshold i - effective_emin s e_min) / 5)
    ++ knots_above (fUseLogE s) (nknots - 5) (Threshold i)
         (step_above (fUseLogE s) (nknots - 5) (Threshold i) (effective_emax s e_max)).
Proof.
  intros Hlo Hn. unfold planned_knots, knot_energies, step_below.
  rewrite effective_nknots_requested, knots_below_count_between by done.
  rewrite Rmax_left by lra. by destruct (Rlt_dec _ _).
Qed.

Lemma completes_between (s : XSecSplineList) (i : Interaction)
    (nknots : Z) (e_min e_max : R) :
  valid_defaults s →
  (effective_emin s e_min < Threshold i < effective_emax s e_max)%R →
  7 <= nknots →
  CreateSpline_completes s i nknots e_min e_max.
Proof.
  intros Hvalid [Hlo Hhi] Hn.
  pose proof (effective_emin_nonneg s e_min Hvalid) as Hmin0.
  unfold CreateSpline_completes.
  rewrite effective_nknots_requested, knots_below_count_between by (done || lia).
  split; [lia|]. split; [lra|]. split; [lia|].
  apply stays_in_the_reals; [rewrite knots_below_count_between by done; lia|].
  rewrite Rmax_left by lra. intros _; lra.
Qed.

Lemma length_planned_between (s : XSecSplineList) (i : Interaction)
    (nknots : Z) (e_min e_max : R) :
  (effective_emin s e_min < Threshold i)%R → 5 <= nknots →
  length (planned_knots s i nknots e_min e_max) = Z.to_nat nknots.
Proof.
  intros Hlo Hn. rewrite planned_knots_between by (done || lia).
  rewrite length_app, length_knots_below, length_knots_above. lia.
Qed.

Lemma built_spline_length (s : XSecSplineList) (a : XSecAlgorithmI)
    (i : Interaction) (nknots : Z) (e_min e_max : R) :
  (effective_emin s e_min < Threshold i)%R → 5 <= nknots →
  length (Knots (built_spline s a i nknots e_min e_max).1) = Z.to_nat nknots.
Proof.
  intros Hlo Hn.
  rewrite <- (length_fmap fst), built_spline_energies.
  rewrite effective_nknots_requested by lia.
  rewrite length_take, length_planned_between by done. lia.
Qed.

(** The first cell written by the loop of lines 170-175: the index is
    [0], so the step does not enter the knot. *)
Lemma knots_above_head (uselog : bool) (nka : Z) (E0 d : R) :
  0 < nka →
  knots_above uselog nka E0 d !! 0%nat
  = Some (if uselog then Power 10 (Log10 E0) else E0).
Proof.
  intros Hn. unfold knots_above.
  rewrite list_lookup_fmap, lookup_seqZ_lt by done. simpl.
  change (0 + Z.of_nat 0) with 0.
  destruct uselog; do 2 f_equal; ring.
Qed.

(** C4, as the code has it.  On a list reached from the constructor, for a
    threshold strictly between the effective bounds and a requested count
    [nknots] with [nknots - 5 >= 2], [CreateSpline] completes and the
    energies of its spline are the planned ones, [nknots] of them.  The
    cells [0..4] hold the sub-threshold knots [Emin + i * ((Ethr - Emin) / 5)],
    the first being [Emin].  The cell [5] is the first of the other loop,
    computed from [max(Ethr, Emin) = Ethr]: the threshold itself with linear
    spacing, and [Power 10 (Log10 Ethr)] with logarithmic spacing.  Nothing
    is said on whether the values of the sub-threshold cells stay below the
    threshold, or on [Power 10 (Log10 Ethr)] being [Ethr]: that holds for
    real numbers and not for every [double]. *)
Theorem threshold_placement (s : XSecSplineList) (a : XSecAlgorithmI)
    (i : Interaction) (nknots : Z) (e_min e_max : R) :
  let Emin := effective_emin s e_min in
  let Emax := effective_emax s e_max in
  let Ethr := Threshold i in
  let E := planned_knots s i nknots e_min e_max in
  reachable s →
  (Emin < Ethr < Emax)%R →
  7 <= nknots →
  (∃ s' i', CreateSpline s (Some a) (Some i) nknots e_min e_max = Ok (s', i'))
  ∧ (Knots (built_spline s a i nknots e_min e_max).1).*1 = E
  ∧ length E = Z.to_nat nknots
  ∧ (∀ k : nat, (k < 5)%nat → E !! k = Some (Emin + INR k * ((Ethr - Emin) / 5))%R)
  ∧ E !! 0%nat = Some Emin
  ∧ Rmax Ethr Emin = Ethr
  ∧ E !! 5%nat = Some (if fUseLogE s then Power 10 (Log10 Ethr) else Ethr).
Proof.
  intros Emin Emax Ethr E Hreach [Hlo Hhi] Hn.
  pose proof (reachable_valid_defaults s Hreach) as Hvalid.
  assert (Hmax : Rmax Ethr Emin = Ethr) by (apply Rmax_left; lra).
  assert (HE : E = knots_below 5 Emin ((Ethr - Emin) / 5)
                   ++ knots_above (fUseLogE s) (nknots - 5) Ethr
                        (step_above (fUseLogE s) (nknots - 5) Ethr Emax))
    by (apply planned_knots_between; (done || lia)).
  assert (Hlen : length E = Z.to_nat nknots)
    by (apply length_planned_between; (done || lia)).
  assert (Hbelow : ∀ k : nat, (k < 5)%nat →
            E !! k = Some (Emin + INR k * ((Ethr - Emin) / 5))%R).
  { intros k Hk. rewrite HE.
    rewrite lookup_app_l by (rewrite length_knots_below; lia).
    apply knots_below_lookup. lia. }
  split.
  { eexists _, _. by apply CreateSpline_Ok, completes_between. }
  split.
  { rewrite built_spline_energies, effective_nknots_requested by lia.
    fold E. apply take_ge. lia. }
  split; [done|]. split; [done|]. split.
  { rewrite (Hbelow 0%nat) by lia. f_equal. simpl. ring. }
  split; [done|].
  rewrite HE, lookup_app_r by (rewrite length_knots_below; lia).
  rewrite length_knots_below. apply knots_above_head. lia.
Qed.

Lemma sample_bounds :
  (effective_emin XSecSplineList_ctor 1 < Threshold sample_interaction
   < effective_emax XSecSplineList_ctor 11)%R.
Proof. unfold effective_emin, effective_emax. simpl. decide_reals. Qed.

Lemma threshold_placement_witness :
  length (planned_knots XSecSplineList_ctor sample_interaction 10 1 11) = 10%nat
  ∧ planned_knots XSecSplineList_ctor sample_interaction 10 1 11 !! 0%nat
    = Some (effective_emin XSecSplineList_ctor 1)
  ∧ planned_knots XSecSplineList_ctor sample_interaction 10 1 11 !! 5%nat
    = Some (if fUseLogE XSecSplineList_ctor
            then Power 10 (Log10 (Threshold sample_interaction))
            else Threshold sample_interaction).
Proof.
  destruct (threshold_placement XSecSplineList_ctor sample_alg sample_interaction
              10 1 11 reachable_ctor sample_bounds ltac:(lia))
    as (_ & _ & Hlen & _ & Hfirst & _ & Hthr).
  split; [exact Hlen|]. split; [exact Hfirst | exact Hthr].
Defined.

(** C4 fails as stated: with five knots requested, and the threshold 6
    strictly between the bounds 1 and 11, [CreateSpline] completes, plans
    five knots, and none of them is the threshold. *)
Lemma threshold_placement_counterexample :
  (effective_emin XSecSplineList_ctor 1 < Threshold sample_interaction
   < effective_emax XSecSplineList_ctor 11)%R
  ∧ (∃ s' i', CreateSpline XSecSplineList_ctor (Some sample_alg)
                (Some sample_interaction) 5 1 11 = Ok (s', i'))
  ∧ length (planned_knots XSecSplineList_ctor sample_interaction 5 1 11) = 5%nat
  ∧ ∀ e, e ∈ planned_knots XSecSplineList_ctor sample_interaction 5 1 11 →
         e ≠ Rmax (Threshold sample_interaction)
               (effective_emin XSecSplineList_ctor 1).
Proof.
  pose proof sample_bounds as Hb.
  assert (Hnkb : knots_below_count (Threshold sample_interaction)
                   (effective_emin XSecSplineList_ctor 1) = 5).
  { unfold knots_below_count. destruct (Rlt_dec _ _); [done|lra]. }
  assert (HE : planned_knots XSecSplineList_ctor sample_interaction 5 1 11
               = knots_below 5 1 ((6 - 1) / 5)).
  { unfold planned_knots, knot_energies. rewrite Hnkb.
    change (effective_nknots XSecSplineList_ctor 5 - 5) with 0.
    unfold knots_above at 1. rewrite seqZ_nil, fmap_nil, app_nil_r by lia.
    unfold step_below. rewrite Hnkb. destruct (Rlt_dec _ _); [|lra].
    unfold effective_emin. by destruct (Rlt_dec 1 0); [lra|]. }
  split; [done|]. split.
  { eexists _, _. apply CreateSpline_Ok. unfold CreateSpline_completes.
    rewrite Hnkb. split; [lia|]. split; [lra|]. split; [done|].
    apply stays_in_the_reals; [by rewrite Hnkb|].
    intros _. unfold effective_emax. simpl. destruct (Rlt_dec 11 0); [lra|].
    split; [|lra]. unfold Rmax. destruct (Rle_dec _ _); lra. }
  rewrite HE. split; [by rewrite length_knots_below|].
  intros e He Heq.
  assert (Hlt : (e < 6)%R).
  { pose proof (knots_below_lt 1 6 ltac:(lra)) as Hall.
    rewrite Forall_forall in Hall. by apply Hall. }
  rewrite Rmax_left in Heq by (simpl in *; lra). simpl in Heq. lra.
Qed.

(** ** The sample spline, created once and created again *)

(** [std::map::insert] at work: under a key that is present [CreateSpline]
    changes nothing in the store. *)
Lemma CreateSpline_present (s : XSecSplineList) (a : XSecAlgorithmI)
    (i : Interaction) (nknots : Z) (e_min e_max : R) :
  CreateSpline_completes s i nknots e_min e_max →
  is_Some (fSplineMap s !! BuildSplineKey (Some a) (Some i)) →
  CreateSpline s (Some a) (Some i) nknots e_min e_max
  = Ok (s, (built_spline s a i nknots e_min e_max).2).
Proof.
  intros Hc Hin. rewrite CreateSpline_Ok by done.
  by rewrite map_insert_present, with_map_same.
Qed.

Lemma created_store_valid : valid_defaults created_store.
Proof. exact ctor_valid_defaults. Qed.

Lemma created_store_bounds (i : Interaction) :
  Threshold i = 6%R →
  (effective_emin created_store 1 < Threshold i < effective_emax created_store 11)%R.
Proof. intros ->. unfold effective_emin, effective_emax. simpl. decide_reals. Qed.

Lemma create_sample :
  CreateSpline XSecSplineList_ctor (Some sample_alg) (Some sample_interaction) 10 1 11
  = Ok (created_store,
        (built_spline XSecSplineList_ctor sample_alg sample_interaction 10 1 11).2).
Proof.
  rewrite CreateSpline_Ok
    by (apply completes_between; [apply ctor_valid_defaults|apply sample_bounds|lia]).
  unfold map_insert. simpl. by rewrite lookup_empty.
Qed.

Lemma CreateSpline_twice_witness :
  ∃ i2, CreateSpline created_store (Some sample_alg)
          (Some (built_spline XSecSplineList_ctor sample_alg sample_interaction 10 1 11).2)
          10 1 11
        = Ok (created_store, i2).
Proof.
  destruct (CreateSpline_twice XSecSplineList_ctor created_store (Some sample_alg)
              (Some sample_interaction) _ 10 1 11 create_sample)
    as (s2 & i2 & Hcall & _ & _ & _ & _ & ->).
  exists i2. exact Hcall.
Defined.

(** C1 fails as stated: the list holds a ten-knot spline under the sample
    key; [CreateSpline] is then called twice with the same arguments, asking
    for twenty knots.  Both calls complete, the store is unchanged, and the
    spline under the key is not the one the second call built. *)
Lemma CreateSpline_twice_counterexample :
  ∃ i0 i1 i2,
    CreateSpline XSecSplineList_ctor (Some sample_alg) (Some sample_interaction)
      10 1 11 = Ok (created_store, i0)
    ∧ CreateSpline created_store (Some sample_alg) (Some i0) 20 1 11
      = Ok (created_store, i1)
    ∧ CreateSpline created_store (Some sample_alg) (Some i1) 20 1 11
      = Ok (created_store, i2)
    ∧ BuildSplineKey (Some sample_alg) (Some i1) = sample_key
    ∧ fSplineMap created_store !! sample_key
      ≠ Some (built_spline created_store sample_alg i1 20 1 11).1.
Proof.
  set (i0 := (built_spline XSecSplineList_ctor sample_alg sample_interaction 10 1 11).2).
  set (i1 := (built_spline created_store sample_alg i0 20 1 11).2).
  destruct (built_spline_interaction XSecSplineList_ctor sample_alg
              sample_interaction 10 1 11) as (Hs0 & Ht0 & _).
  destruct (built_spline_interaction created_store sample_alg i0 20 1 11)
    as (Hs1 & Ht1 & _).
  fold i0 in Hs0, Ht0, Hs1, Ht1. fold i1 in Hs1, Ht1.
  assert (Hk0 : BuildSplineKey (Some sample_alg) (Some i0) = sample_key)
    by (simpl; by rewrite Hs0).
  assert (Hk1 : BuildSplineKey (Some sample_alg) (Some i1) = sample_key)
    by (simpl; by rewrite Hs1, Hs0).
  assert (Hin : is_Some (fSplineMap created_store !! sample_key))
    by (unfold created_store; simpl; by rewrite lookup_singleton_eq).
  assert (Hb0 : (effective_emin created_store 1 < Threshold i0
                 < effective_emax created_store 11)%R)
    by (apply created_store_bounds; by rewrite Ht0).
  assert (Hb1 : (effective_emin created_store 1 < Threshold i1
                 < effective_emax created_store 11)%R)
    by (apply created_store_bounds; by rewrite Ht1, Ht0).
  exists i0, i1, (built_spline created_store sample_alg i1 20 1 11).2.
  split; [apply create_sample|].
  split.
  { apply CreateSpline_present; [|by rewrite Hk0].
    apply completes_between; [apply created_store_valid|done|lia]. }
  split.
  { apply CreateSpline_present; [|by rewrite Hk1].
    apply completes_between; [apply created_store_valid|done|lia]. }
  split; [done|].
  unfold created_store at 1. simpl. rewrite lookup_singleton_eq.
  intros [= Heq].
  pose proof (built_spline_length XSecSplineList_ctor sample_alg sample_interaction
                10 1 11 (proj1 sample_bounds) ltac:(lia)) as H10.
  pose proof (built_spline_length created_store sample_alg i1 20 1 11
                (proj1 Hb1) ltac:(lia)) as H20.
  rewrite Heq, H20 in H10. lia.
Qed.

(** ** Loading what SaveAsXml has written *)

Lemma sorted_entries_Permutation (m : gmap string Spline) :
  sorted_entries m ≡ₚ map_to_list m.
Proof. apply merge_sort_Permutation. Qed.


Section SavedFiles.
Context (txt : TextFunctions).

Lemma insert_next_cell (done : list R) (v : R) (m : nat) :
  <[length done := Some v]> ((Some <$> done) ++ replicate (S m) None)
  = (Some <$> (done ++ [v])) ++ replicate m None.
Proof.
  rewrite insert_app_r_alt by (rewrite length_fmap; lia).
  rewrite length_fmap, Nat.sub_diag, fmap_app. simpl. by rewrite <- app_assoc.
Qed.

Lemma read_written_cells (vs : list R) :
  read_cells (Some ((Some <$> vs) ++ replicate 0 None)) = Ok vs.
Proof.
  unfold read_cells. simpl. rewrite app_nil_r.
  assert (H : mapM (M := option) (λ c : option R, c) (Some <$> vs) = Some vs).
  { apply mapM_Some. induction vs; constructor; done. }
  by rewrite H.
Qed.

Lemma load_nodes_step (n : XmlNode) (rest : list XmlNode)
    (s s' : XSecSplineList) (l l' : LoadState) :
  load_node txt n s l = Ok (Continue s' l') →
  load_nodes txt (n :: rest) s l = load_nodes txt rest s' l'.
Proof. intros H. simpl. by rewrite H. Qed.

Lemma load_node_inert (n : XmlNode)
    (s : XSecSplineList) (l : LoadState) :
  inert n = true → load_node txt n s l = Ok (Continue s l).
Proof.
  unfold inert. rewrite !andb_true_iff, !negb_true_iff.
  intros (((((Hroot & Hspl) & HE) & Hx) & Htext) & Hknot).
  unfold load_node, on_root, on_spline_start, on_value_tag, on_text,
    on_knot_end, on_spline_end, is_start, is_end in *.
  by rewrite Hroot, Hspl, HE, Hx, Htext, Hknot.
Qed.

Lemma load_node_E_start (s : XSecSplineList) (l : LoadState) :
  load_node txt (mkNode "E" "" kNodeTypeStartElement 3 []) s l
  = Ok (Continue s (set_val_type l kKnotX)).
Proof. reflexivity. Qed.

Lemma load_node_xsec_start (s : XSecSplineList) (l : LoadState) :
  load_node txt (mkNode "xsec" "" kNodeTypeStartElement 3 []) s l
  = Ok (Continue s (set_val_type l kKnotY)).
Proof. reflexivity. Qed.

Lemma load_node_E_text (s : XSecSplineList)
    (l : LoadState) (v : string) (b : buffer) :
  val_type l = kKnotX →
  store_cell (E l) (iknot l) (atof txt v) = Ok b →
  load_node txt (mkNode "#text" v 3 4 []) s l = Ok (Continue s (set_E l b)).
Proof.
  intros Hv Hb. unfold load_node, on_root, on_spline_start, on_value_tag,
    on_text, on_knot_end, on_spline_end; simpl; by rewrite Hv, Hb.
Qed.

Lemma load_node_xsec_text (s : XSecSplineList)
    (l : LoadState) (v : string) (b : buffer) :
  val_type l = kKnotY →
  store_cell (xsec l) (iknot l) (atof txt v) = Ok b →
  load_node txt (mkNode "#text" v 3 4 []) s l = Ok (Continue s (set_xsec l b)).
Proof.
  intros Hv Hb. unfold load_node, on_root, on_spline_start, on_value_tag,
    on_text, on_knot_end, on_spline_end; simpl; by rewrite Hv, Hb.
Qed.

Lemma load_node_knot_end (s : XSecSplineList) (l : LoadState) :
  load_node txt (mkNode "knot" "" kNodeTypeEndElement 2 []) s l
  = Ok (Continue s (next_knot l)).
Proof. reflexivity. Qed.

Lemma store_next_cell (done : list R) (v : R) (m : nat) :
  store_cell (Some ((Some <$> done) ++ replicate (S m) None))
    (Z.of_nat (length done)) v
  = Ok (Some ((Some <$> (done ++ [v])) ++ replicate m None)).
Proof.
  unfold store_cell.
  rewrite length_app, length_fmap, length_replicate.
  rewrite (proj2 (Z.leb_le 0 _)), (proj2 (Z.ltb_lt _ _)) by lia. cbn [andb].
  by rewrite Nat2Z.id, insert_next_cell.
Qed.

(** One [knot] element fills the next cell of both buffers. *)
Lemma load_knot (s : XSecSplineList) (vt n : Z)
    (name : string) (doneE doneX : list R) (m : nat) (k : R * R)
    (rest : list XmlNode) :
  length doneX = length doneE →
  load_nodes txt (knot_nodes txt k ++ rest) s
    {| val_type := vt; iknot := Z.of_nat (length doneE); nknots := n;
       E := Some ((Some <$> doneE) ++ replicate (S m) None);
       xsec := Some ((Some <$> doneX) ++ replicate (S m) None);
       spline_name := name |}
  = load_nodes txt rest s
      {| val_type := kKnotY; iknot := Z.of_nat (length (doneE ++ [reread txt k.1]));
         nknots := n;
         E := Some ((Some <$> (doneE ++ [reread txt k.1])) ++ replicate m None);
         xsec := Some ((Some <$> (doneX ++ [reread txt k.2])) ++ replicate m None);
         spline_name := name |}.
Proof.
  intros Hlen. unfold knot_nodes. cbn [app].
  erewrite load_nodes_step by (by apply load_node_inert).
  rewrite (load_nodes_step _ _ _ _ _ _ (load_node_E_start s _)).
  erewrite load_nodes_step
    by (by apply load_node_E_text; [|apply store_next_cell]).
  erewrite load_nodes_step by (by apply load_node_inert).
  rewrite (load_nodes_step _ _ _ _ _ _ (load_node_xsec_start s _)).
  erewrite load_nodes_step
    by (by apply load_node_xsec_text;
          [|cbn [xsec iknot set_val_type set_E]; rewrite <- Hlen; apply store_next_cell]).
  erewrite load_nodes_step by (by apply load_node_inert).
  rewrite (load_nodes_step _ _ _ _ _ _ (load_node_knot_end s _)).
  unfold next_knot, set_xsec, set_E, set_val_type. cbn [val_type iknot nknots E xsec spline_name].
  do 2 f_equal. rewrite length_app. simpl. lia.
Qed.

Lemma load_knots (s : XSecSplineList) (n : Z)
    (name : string) (ks : list (R * R)) (m : nat) (rest : list XmlNode) :
  ∀ (vt : Z) (doneE doneX : list R),
  length doneX = length doneE →
  ∃ vt',
    load_nodes txt (flat_map (knot_nodes txt) ks ++ rest) s
      {| val_type := vt; iknot := Z.of_nat (length doneE); nknots := n;
         E := Some ((Some <$> doneE) ++ replicate (length ks + m) None);
         xsec := Some ((Some <$> doneX) ++ replicate (length ks + m) None);
         spline_name := name |}
    = load_nodes txt rest s
        {| val_type := vt';
           iknot := Z.of_nat (length (doneE ++ (reread txt <$> ks.*1)));
           nknots := n;
           E := Some ((Some <$> (doneE ++ (reread txt <$> ks.*1))) ++ replicate m None);
           xsec := Some ((Some <$> (doneX ++ (reread txt <$> ks.*2))) ++ replicate m None);
           spline_name := name |}.
Proof.
  induction ks as [|k ks IH]; intros vt doneE doneX Hlen.
  - exists vt. simpl. by rewrite !app_nil_r.
  - cbn [flat_map length Nat.add]. rewrite <- app_assoc.
    rewrite load_knot by done.
    destruct (IH kKnotY (doneE ++ [reread txt k.1]) (doneX ++ [reread txt k.2]))
      as [vt' Hks]; [rewrite !length_app; simpl; lia|].
    exists vt'. rewrite Hks. cbn [fmap list_fmap]. by rewrite <- !app_assoc.
Qed.

Lemma reader_nodes_spline (spl : Spline) (name : string) :
  reader_nodes 1 (Spline_SaveAsXml txt spl "E" "xsec" name)
  = mkNode "spline" "" kNodeTypeStartElement 1
      [("name", name); ("nknots", fmt_int txt (NKnots_of spl))]
    :: flat_map (knot_nodes txt) (Knots spl)
    ++ [mkNode "spline" "" kNodeTypeEndElement 1 []].
Proof.
  unfold Spline_SaveAsXml. cbn [reader_nodes]. do 2 f_equal.
  induction (Knots spl) as [|k ks IH]; [done|].
  cbn [fmap list_fmap flat_map]. rewrite <- IH. reflexivity.
Qed.

Lemma load_node_spline_start (s : XSecSplineList)
    (l : LoadState) (name count : string) :
  0 <= atoi (TrimSpaces txt count) →
  load_node txt (mkNode "spline" "" kNodeTypeStartElement 1
                   [("name", name); ("nknots", count)]) s l
  = Ok (Continue s
          {| val_type := val_type l; iknot := 0;
             nknots := atoi (TrimSpaces txt count);
             E := Some (replicate (Z.to_nat (atoi (TrimSpaces txt count))) None);
             xsec := Some (replicate (Z.to_nat (atoi (TrimSpaces txt count))) None);
             spline_name := TrimSpaces txt name |}).
Proof.
  intros Hn. unfold load_node, on_root, on_spline_start, on_value_tag, on_text,
    on_knot_end, on_spline_end, new_double. simpl.
  by rewrite (proj2 (Z.ltb_ge _ 0) Hn).
Qed.

Lemma load_node_spline_end (s : XSecSplineList)
    (l : LoadState) (e x : list R) :
  read_cells (E l) = Ok e → read_cells (xsec l) = Ok x →
  load_node txt (mkNode "spline" "" kNodeTypeEndElement 1 []) s l
  = Ok (Continue
          (with_init
             (with_map s (map_insert (spline_name l) (Spline_new (nknots l) e x)
                            (fSplineMap s)))
             ({[ spline_name l ]} ∪ fInitSet s))
          (set_xsec (set_E l None) None)).
Proof.
  intros He Hx. unfold load_node, on_root, on_spline_start, on_value_tag, on_text,
    on_knot_end, on_spline_end. simpl. by rewrite He, Hx.
Qed.

(** One saved spline element is loaded as [load_entry] says. *)
Lemma load_block (s : XSecSplineList) (l : LoadState)
    (e : string * Spline) (rest : list XmlNode) :
  count_rereads txt e →
  ∃ l', load_nodes txt (reader_nodes 1 (Spline_SaveAsXml txt e.2 "E" "xsec" e.1) ++ rest) s l
        = load_nodes txt rest (load_entry txt s e) l'.
Proof.
  intros Hcount. unfold count_rereads in Hcount.
  rewrite reader_nodes_spline. cbn [app].
  erewrite load_nodes_step
    by (apply load_node_spline_start; rewrite Hcount; unfold NKnots_of; lia).
  rewrite Hcount. unfold NKnots_of. rewrite Nat2Z.id, <- app_assoc.
  destruct (load_knots s (Z.of_nat (length (Knots e.2))) (TrimSpaces txt e.1)
              (Knots e.2) 0 ([mkNode "spline" "" kNodeTypeEndElement 1 []] ++ rest)
              (val_type l) [] [] eq_refl) as [vt' Hks].
  cbn [fmap list_fmap app length] in Hks. rewrite Nat.add_0_r in Hks.
  change (Z.of_nat 0) with 0 in Hks. cbn [app].
  rewrite Hks.
  erewrite load_nodes_step
    by (apply load_node_spline_end; apply read_written_cells).
  by eexists.
Qed.

Lemma load_blocks (entries : list (string * Spline))
    (rest : list XmlNode) :
  Forall (count_rereads txt) entries →
  ∀ (s : XSecSplineList) (l : LoadState),
  ∃ l', load_nodes txt
          (flat_map (reader_nodes 1)
             ((λ e : string * Spline, Spline_SaveAsXml txt e.2 "E" "xsec" e.1) <$> entries)
           ++ rest) s l
        = load_nodes txt rest (foldl (load_entry txt) s entries) l'.
Proof.
  induction 1 as [|e entries He _ IH]; intros s l.
  - by exists l.
  - cbn [fmap list_fmap flat_map foldl]. rewrite <- app_assoc.
    destruct (load_block s l e
                (flat_map (reader_nodes 1)
                   ((λ e : string * Spline, Spline_SaveAsXml txt e.2 "E" "xsec" e.1)
                      <$> entries) ++ rest) He) as [l1 H1].
    rewrite H1. apply IH.
Qed.

Lemma load_node_root (s : XSecSplineList) (l : LoadState)
    (version uselog : string) :
  load_node txt (mkNode root_name "" kNodeTypeStartElement 0
                   [("version", version); ("uselog", uselog)]) s l
  = Ok (Continue (SetLogE s (atoi (TrimSpaces txt uselog) =? 1)) l).
Proof. reflexivity. Qed.

(** The file [SaveAsXml] writes, loaded again: the use-log flag of the saved
    list, and one [load_entry] per saved entry, in the order written. *)
Lemma LoadFromXml_SaveAsXml (fs : FileSystem)
    (s t : XSecSplineList) (path : string) (save_init keep : bool) :
  fs_creatable fs path = true →
  Forall (count_rereads txt) (saved_entries s save_init) →
  LoadFromXml txt (SaveAsXml txt fs s path save_init) t path keep
  = Ok (kXmlOK,
        foldl (load_entry txt)
          (SetLogE (if keep then t else with_map t ∅)
             (atoi (TrimSpaces txt (if fUseLogE s then "1" else "0")) =? 1))
          (saved_entries s save_init)).
Proof.
  intros Hpath Hcount. unfold LoadFromXml, SaveAsXml. rewrite Hpath.
  cbn [fs_files]. rewrite lookup_insert_eq.
  unfold file_of_document, xml_document. cbn [file_nodes file_end flat_map reader_nodes app].
  rewrite app_nil_r.
  set (t0 := if keep then t else with_map t ∅).
  change (0 + 1) with 1.
  erewrite load_nodes_step by (by apply load_node_inert).
  rewrite (load_nodes_step _ _ _ _ _ _
             (load_node_root t0 load_init "2.00" (if fUseLogE s then "1" else "0"))).
  erewrite load_nodes_step by (by apply load_node_inert).
  destruct (load_blocks (saved_entries s save_init)
              [mkNode root_name "" kNodeTypeEndElement 0 []] Hcount
              (SetLogE t0 (atoi (TrimSpaces txt (if fUseLogE s then "1" else "0")) =? 1))
              load_init) as [l' Hl].
  rewrite Hl.
  erewrite load_nodes_step by (by apply load_node_inert).
  reflexivity.
Qed.




End SavedFiles.

Example load_other :
  LoadFromXml sample_text sample_fs XSecSplineList_ctor "other.xml" true
  = Ok (kXmlOK, other_store).
Proof. vm_compute. reflexivity. Qed.

(** ** The initial set *)

Lemma CreateSpline_init_set (s s' : XSecSplineList) (alg : option XSecAlgorithmI)
    (interaction : option Interaction) (i' : Interaction)
    (nknots : Z) (e_min e_max : R) :
  CreateSpline s alg interaction nknots e_min e_max = Ok (s', i') →
  fInitSet s' = fInitSet s.
Proof.
  intros H. by apply CreateSpline_inv in H as (a & i & _ & _ & _ & -> & _).
Qed.

Lemma run_init_set (txt : TextFunctions) (op : Operation) (s s' : XSecSplineList) :
  run txt op s = Ok s' → fInitSet s ⊆ fInitSet s'.
Proof.
  destruct op as [alg interaction nk e_min e_max|on|nk|Ev|Ev|fs filename save_init|fs filename keep];
    simpl; try (by intros [= <-]).
  - destruct (CreateSpline s alg interaction nk e_min e_max) as [[s1 i1]|] eqn:Hc;
      simpl; [|done].
    intros [= <-]. by rewrite (CreateSpline_init_set _ _ _ _ _ _ _ _ Hc).
  - destruct (LoadFromXml txt fs s filename keep) as [[st s1]|] eqn:Hl; simpl; [|done].
    intros [= <-]. by apply LoadFromXml_init_set in Hl.
Qed.

Lemma run_all_init_set (txt : TextFunctions) (ops : list Operation)
    (s s' : XSecSplineList) :
  run_all txt ops s = Ok s' → fInitSet s ⊆ fInitSet s'.
Proof.
  revert s. induction ops as [|op ops IH]; intros s; simpl.
  - by intros [= <-].
  - destruct (run txt op s) as [s1|] eqn:Hop; simpl; [|done].
    intros H. apply run_init_set in Hop. apply IH in H. set_solver.
Qed.


(** An entry whose key is in the initial set is not written by a selective
    save, however it came into the map. *)
Lemma saved_entries_skip_init (s : XSecSplineList) (k : string) :
  k ∈ fInitSet s → k ∉ (saved_entries s false).*1.
Proof.
  intros Hk Hin. apply list_elem_of_fmap in Hin as ([k' spl] & -> & Hin).
  unfold saved_entries in Hin. apply list_elem_of_filter in Hin as [Hnot _].
  apply Hnot. by split.
Qed.

(** C10.  No sequence of operations removes a key from the initial set;
    [CreateSpline], the setters and [SaveAsXml] leave it as it is, only
    [LoadFromXml] can add to it; a load with [keep = false] keeps the marks
    of earlier loads; and an entry stored under a marked key is skipped by a
    save with [save_init = false], however it came into the map. *)
Theorem init_set_never_shrinks (txt : TextFunctions) :
  (∀ ops s s', run_all txt ops s = Ok s' → fInitSet s ⊆ fInitSet s')
  ∧ (∀ s alg interaction nknots e_min e_max s' i',
       CreateSpline s alg interaction nknots e_min e_max = Ok (s', i') →
       fInitSet s' = fInitSet s)
  ∧ (∀ op s s', (∀ fs filename keep, op ≠ OpLoadFromXml fs filename keep) →
       run txt op s = Ok s' → fInitSet s' = fInitSet s)
  ∧ (∀ fs s filename st s',
       LoadFromXml txt fs s filename false = Ok (st, s') →
       fInitSet s ⊆ fInitSet s')
  ∧ (∀ s k, k ∈ fInitSet s → k ∉ (saved_entries s false).*1).
Proof.
  split; [apply run_all_init_set|].
  split; [intros *; apply CreateSpline_init_set|].
  split.
  { intros op s s' Hop.
    destruct op as [alg interaction nk e_min e_max|on|nk|Ev|Ev|fs filename save_init|fs filename keep];
      simpl; try (by intros [= <-]).
    - destruct (CreateSpline s alg interaction nk e_min e_max) as [[s1 i1]|] eqn:Hc;
        simpl; [|done].
      intros [= <-]. by rewrite (CreateSpline_init_set _ _ _ _ _ _ _ _ Hc).
    - by destruct (Hop fs filename keep). }
  split; [intros *; apply LoadFromXml_init_set|].
  apply saved_entries_skip_init.
Qed.

Lemma init_set_never_shrinks_witness :
  fInitSet loaded_store ⊆ fInitSet reloaded_store
  ∧ fSplineMap reloaded_store !! sample_key = None
  ∧ sample_key ∉ (saved_entries
                    (with_map reloaded_store
                       (map_insert sample_key sample_spline (fSplineMap reloaded_store)))
                    false).*1.
Proof.
  destruct (init_set_never_shrinks sample_text) as (_ & _ & _ & Hload & Hskip).
  split; [exact (Hload sample_fs loaded_store "other.xml" kXmlOK reloaded_store reload_other)|].
  split; [reflexivity|].
  apply Hskip. simpl. set_solver.
Defined.

(** ** Selective saving *)

(** A list whose keys are all marked saves nothing selectively. *)
Lemma saved_entries_all_init (s : XSecSplineList) :
  dom (fSplineMap s) ⊆ fInitSet s → saved_entries s false = [].
Proof.
  intros Hdom. unfold saved_entries. apply filter_Forall_none.
  apply Forall_forall. intros [k spl] Hin Hnot. apply Hnot. split; [|done].
  rewrite sorted_entries_Permutation in Hin.
  apply elem_of_map_to_list in Hin. apply Hdom, elem_of_dom. by eexists.
Qed.

(** One unmarked entry added to a list whose keys are all marked is the one
    entry saved selectively. *)
Lemma saved_entries_one_new (s : XSecSplineList) (k : string) (spl : Spline) :
  dom (fSplineMap s) ⊆ fInitSet s → k ∉ fInitSet s →
  saved_entries (with_map s (map_insert k spl (fSplineMap s))) false = [(k, spl)].
Proof.
  intros Hdom Hk.
  assert (Hnone : fSplineMap s !! k = None).
  { apply not_elem_of_dom. intros Hin. by apply Hk, Hdom. }
  unfold map_insert. rewrite Hnone. unfold saved_entries. cbn [fSplineMap fInitSet with_map].
  apply Permutation_singleton_r.
  rewrite sorted_entries_Permutation, map_to_list_insert by done.
  rewrite filter_cons_True by (simpl; intros [? _]; done).
  rewrite filter_Forall_none; [done|].
  apply Forall_forall. intros [k' spl'] Hin Hnot. apply Hnot. split; [|done].
  apply elem_of_map_to_list in Hin. apply Hdom, elem_of_dom. by eexists.
Qed.

(** C6, with the precondition it needs.  The keys of the list are all in the
    initial set, and [CreateSpline] adds an entry under a key that is not in
    the initial set.  Then a save with [save_init = false] writes that entry
    only, and loading the file with [keep = false] gives a list whose only
    key is the new one, provided the key and the knot count of the entry
    survive the text functions of the loader. *)
Theorem selective_save (txt : TextFunctions) (fs : FileSystem)
    (s s1 : XSecSplineList) (a : XSecAlgorithmI) (i i1 : Interaction)
    (nknots : Z) (e_min e_max : R) (path : string) :
  let key := BuildSplineKey (Some a) (Some i) in
  dom (fSplineMap s) ⊆ fInitSet s →
  key ∉ fInitSet s →
  CreateSpline s (Some a) (Some i) nknots e_min e_max = Ok (s1, i1) →
  fs_creatable fs path = true →
  TrimSpaces txt key = key →
  (∀ spl, fSplineMap s1 !! key = Some spl → count_rereads txt (key, spl)) →
  (saved_entries s1 false).*1 = [key]
  ∧ ∃ s2, LoadFromXml txt (SaveAsXml txt fs s1 path false) s1 path false
          = Ok (kXmlOK, s2)
      ∧ dom (fSplineMap s2) = {[ key ]}.
Proof.
  intros key Hdom Hkey Hcreate Hpath Htrim Hcount.
  apply CreateSpline_inv in Hcreate as (a' & i' & [= <-] & [= <-] & _ & -> & _).
  fold key in Hcount |- *.
  set (spl := (built_spline s a i nknots e_min e_max).1) in *.
  pose proof (saved_entries_one_new s key spl Hdom Hkey) as Hsaved.
  assert (Hlook : fSplineMap (with_map s (map_insert key spl (fSplineMap s))) !! key
                  = Some spl).
  { cbn [fSplineMap with_map]. unfold map_insert.
    assert (Hnone : fSplineMap s !! key = None).
    { apply not_elem_of_dom. intros Hin. by apply Hkey, Hdom. }
    by rewrite Hnone, lookup_insert_eq. }
  split; [by rewrite Hsaved|].
  eexists. split.
  - apply LoadFromXml_SaveAsXml; [done|].
    rewrite Hsaved. constructor; [|constructor]. by apply Hcount.
  - rewrite Hsaved. cbn [foldl load_entry fSplineMap with_init with_map SetLogE fst].
    rewrite Htrim. unfold map_insert. rewrite lookup_empty.
    by rewrite dom_insert_L, dom_empty_L, union_empty_r_L.
Qed.

Lemma sample_defaults_valid (s : XSecSplineList) :
  fEmin s = (1 / 100)%R → fEmax s = 100%R → fNKnots s = 100 → valid_defaults s.
Proof. intros H1 H2 H3. unfold valid_defaults. rewrite H1, H2, H3. split; [lra|]. split; [lra|lia]. Qed.

Lemma sample_bounds_in (s : XSecSplineList) :
  (effective_emin s 1 < Threshold sample_interaction < effective_emax s 11)%R.
Proof. unfold effective_emin, effective_emax. simpl. decide_reals. Qed.

Lemma sample_key_not_other : sample_key ≠ "genie::DISXSec/Default/nu:14".
Proof. discriminate. Qed.

Lemma selective_save_witness :
  ∃ s1 i1 s2,
    CreateSpline other_store (Some sample_alg) (Some sample_interaction) 10 1 11
    = Ok (s1, i1)
    ∧ LoadFromXml sample_text (SaveAsXml sample_text sample_fs s1 "out.xml" false)
        s1 "out.xml" false = Ok (kXmlOK, s2)
    ∧ dom (fSplineMap s2) = {[ sample_key ]}.
Proof.
  set (spl := (built_spline other_store sample_alg sample_interaction 10 1 11).1).
  set (s1 := with_map other_store (map_insert sample_key spl (fSplineMap other_store))).
  set (i1 := (built_spline other_store sample_alg sample_interaction 10 1 11).2).
  assert (Hcreate : CreateSpline other_store (Some sample_alg) (Some sample_interaction)
                      10 1 11 = Ok (s1, i1)).
  { apply CreateSpline_Ok, completes_between;
      [by apply sample_defaults_valid|apply sample_bounds_in|lia]. }
  assert (Hnew : sample_key ∉ fInitSet other_store).
  { simpl. apply not_elem_of_singleton, sample_key_not_other. }
  destruct (selective_save sample_text sample_fs other_store s1 sample_alg
              sample_interaction i1 10 1 11 "out.xml")
    as (_ & s2 & Hload & Hdom).
  - simpl. rewrite dom_singleton_L. set_solver.
  - exact Hnew.
  - exact Hcreate.
  - reflexivity.
  - vm_compute. reflexivity.
  - intros spl' Hspl'. unfold count_rereads, NKnots_of. cbn [snd].
    assert (spl' = spl) as ->.
    { change (BuildSplineKey (Some sample_alg) (Some sample_interaction))
        with sample_key in Hspl'.
      unfold s1, map_insert, other_store in Hspl'. cbn [fSplineMap with_map] in Hspl'.
      rewrite (lookup_singleton_ne _ _ _ (not_eq_sym sample_key_not_other)) in Hspl'.
      rewrite lookup_insert_eq in Hspl'. congruence. }
    unfold spl. rewrite built_spline_length by (apply sample_bounds_in || lia).
    vm_compute. reflexivity.
  - exists s1, i1, s2. split; [exact Hcreate|]. split; [exact Hload|exact Hdom].
Defined.

(** C6 fails as stated: [xsec.xml] is loaded, then [other.xml] with
    [keep = false]; every key of the list comes from a load.  The sample
    spline is then created under a key that is not in the list; its key was
    marked by the first load, the selective save writes no spline, and the
    list loaded back is empty. *)
Lemma selective_save_counterexample :
  LoadFromXml sample_text sample_fs XSecSplineList_ctor "xsec.xml" true
  = Ok (kXmlOK, loaded_store)
  ∧ LoadFromXml sample_text sample_fs loaded_store "other.xml" false
    = Ok (kXmlOK, reloaded_store)
  ∧ dom (fSplineMap reloaded_store) ⊆ fInitSet reloaded_store
  ∧ fSplineMap reloaded_store !! sample_key = None
  ∧ ∃ s1 i1 s2,
      CreateSpline reloaded_store (Some sample_alg) (Some sample_interaction) 10 1 11
      = Ok (s1, i1)
      ∧ is_Some (fSplineMap s1 !! sample_key)
      ∧ saved_entries s1 false = []
      ∧ LoadFromXml sample_text (SaveAsXml sample_text sample_fs s1 "out.xml" false)
          s1 "out.xml" false = Ok (kXmlOK, s2)
      ∧ fSplineMap s2 = ∅.
Proof.
  split; [apply load_sample|]. split; [apply reload_other|].
  split; [simpl; rewrite dom_singleton_L; set_solver|].
  split; [reflexivity|].
  set (spl := (built_spline reloaded_store sample_alg sample_interaction 10 1 11).1).
  set (s1 := with_map reloaded_store
               (map_insert sample_key spl (fSplineMap reloaded_store))).
  assert (Hmap : fSplineMap s1
                 = <[sample_key := spl]> (fSplineMap reloaded_store)).
  { unfold s1, map_insert, reloaded_store. cbn [fSplineMap with_map].
    by rewrite (lookup_singleton_ne _ _ _ (not_eq_sym sample_key_not_other)). }
  assert (Hsaved : saved_entries s1 false = []).
  { apply saved_entries_all_init. rewrite Hmap. simpl.
    rewrite dom_insert_L, dom_singleton_L. set_solver. }
  exists s1, (built_spline reloaded_store sample_alg sample_interaction 10 1 11).2.
  eexists. split.
  { apply CreateSpline_Ok, completes_between;
      [by apply sample_defaults_valid|apply sample_bounds_in|lia]. }
  split; [rewrite Hmap, lookup_insert_eq; by eexists|].
  split; [done|]. split.
  - apply LoadFromXml_SaveAsXml; [reflexivity|]. rewrite Hsaved. constructor.
  - by rewrite Hsaved.
Qed.

(** * Further properties of the code *)

(** ** The list values *)

(** X1.  On every list reached from the constructor the default energy
    bounds are positive and the default knot count is at least 10. *)
Theorem defaults_stay_valid (s : XSecSplineList) :
  reachable s → (0 < fEmin s)%R ∧ (0 < fEmax s)%R ∧ 10 <= fNKnots s.
Proof. apply reachable_valid_defaults. Qed.

Lemma loaded_store_reachable : reachable loaded_store.
Proof.
  exists sample_text, [OpLoadFromXml sample_fs "xsec.xml" true].
  cbn [run_all run]. by rewrite load_sample.
Qed.

Lemma defaults_stay_valid_witness :
  (0 < fEmin loaded_store)%R ∧ (0 < fEmax loaded_store)%R ∧ 10 <= fNKnots loaded_store.
Proof. exact (defaults_stay_valid loaded_store loaded_store_reachable). Defined.

(** The assertion of [CreateSpline]. *)
Lemma CreateSpline_asserts (s : XSecSplineList) (a : XSecAlgorithmI) (i : Interaction)
    (nk : Z) (e_min e_max : R) :
  0 < nk → (effective_emax s e_max <= effective_emin s e_min)%R →
  CreateSpline s (Some a) (Some i) nk e_min e_max = Fault Aborted.
Proof.
  intros Hn Hle. unfold CreateSpline.
  rewrite (proj2 (Z.leb_gt nk 0)) by lia.
  destruct (Rlt_dec _ _); [lra|done].
Qed.

(** X2.  The setters do not keep the default bounds ordered: [SetMinE]
    accepts any positive value, and once the default minimum is at or above
    the default maximum every [CreateSpline] that falls back to both
    defaults stops at its assertion. *)
Theorem SetMinE_can_invert_bounds (s : XSecSplineList) (Ev : R)
    (a : XSecAlgorithmI) (i : Interaction) (nk : Z) (e_min e_max : R) :
  (0 < Ev)%R → (fEmax s <= Ev)%R →
  (e_min < 0)%R → (e_max < 0)%R → 0 < nk →
  fEmin (SetMinE s Ev) = Ev
  ∧ fEmax (SetMinE s Ev) = fEmax s
  ∧ CreateSpline (SetMinE s Ev) (Some a) (Some i) nk e_min e_max = Fault Aborted.
Proof.
  intros HEv Hmax Hmin Hmax' Hn.
  assert (Hset : fEmin (SetMinE s Ev) = Ev) by (simpl; by destruct (Rlt_dec 0 Ev)).
  split; [done|]. split; [done|].
  apply CreateSpline_asserts; [done|].
  unfold effective_emin, effective_emax.
  destruct (Rlt_dec e_min 0); [|lra]. destruct (Rlt_dec e_max 0); [|lra].
  rewrite Hset. simpl. lra.
Qed.

Lemma SetMinE_can_invert_bounds_witness :
  CreateSpline (SetMinE XSecSplineList_ctor 200) (Some sample_alg)
    (Some sample_interaction) 20 (-1) (-1) = Fault Aborted.
Proof.
  apply (SetMinE_can_invert_bounds XSecSplineList_ctor 200 sample_alg
           sample_interaction 20 (-1) (-1)); simpl; (lra || lia).
Defined.

(** ** Creating and looking up *)

Lemma SplineExists_true (s : XSecSplineList) (key : string) :
  SplineExists s key = true ↔ is_Some (fSplineMap s !! key).
Proof. unfold SplineExists. apply bool_decide_eq_true. Qed.

Lemma GetSpline_lookup (s : XSecSplineList) (key : string) :
  GetSpline s key = fSplineMap s !! key.
Proof.
  unfold GetSpline, SplineExists. case_bool_decide as H; [done|].
  symmetry. by apply eq_None_not_Some.
Qed.

Lemma integrate_values (alg : XSecAlgorithmI) (pr_mass : R) (E : list R) :
  ∀ i : Interaction,
  (integrate alg pr_mass i E).1
  = (λ e, Integral alg (SetProbeP4 i (probe_p4 pr_mass e))) <$> E.
Proof.
  induction E as [|e E IH]; intros i; [done|]. cbn [integrate].
  specialize (IH (SetProbeP4 i (probe_p4 pr_mass e))).
  destruct (integrate alg pr_mass (SetProbeP4 i (probe_p4 pr_mass e)) E) as [xs i2].
  cbn [fst] in *. rewrite IH. reflexivity.
Qed.

Lemma integrate_last (alg : XSecAlgorithmI) (pr_mass : R) (E : list R) :
  ∀ i : Interaction,
  (integrate alg pr_mass i E).2
  = match last E with
    | Some e => SetProbeP4 i (probe_p4 pr_mass e)
    | None => i
    end.
Proof.
  induction E as [|e E IH]; intros i; [done|]. cbn [integrate].
  specialize (IH (SetProbeP4 i (probe_p4 pr_mass e))).
  destruct (integrate alg pr_mass (SetProbeP4 i (probe_p4 pr_mass e)) E) as [xs i2].
  cbn [snd] in *. rewrite IH. destruct E as [|e' E]; [reflexivity|].
  change (last (e :: e' :: E)) with (last (e' :: E)).
  destruct (last (e' :: E)) eqn:Hl; [reflexivity|]. by apply last_None in Hl.
Qed.

(** The cross sections of the spline that is built are the integrals at its
    energies. *)
Lemma built_spline_samples (s : XSecSplineList) (a : XSecAlgorithmI)
    (i : Interaction) (nk : Z) (e_min e_max : R) :
  (Knots (built_spline s a i nk e_min e_max).1).*2
  = xsec_at a i <$> (Knots (built_spline s a i nk e_min e_max).1).*1.
Proof.
  rewrite built_spline_energies. unfold built_spline.
  pose proof (integrate_values a (ProbeMass i)
    (take (Z.to_nat (effective_nknots s nk)) (planned_knots s i nk e_min e_max)) i) as Hv.
  destruct (integrate _ _ _ _) as [xs i2]. cbn [fst Knots Spline_new] in *.
  rewrite snd_zip.
  - rewrite Hv. rewrite take_ge; [done|]. rewrite length_fmap, length_take. lia.
  - rewrite Hv, !length_take, length_fmap, length_take. lia.
Qed.

(** X3.  After a completed [CreateSpline] the spline exists for the same
    algorithm and interaction and [GetSpline] returns one; when a spline was
    stored under the key before, it is the one returned; when none was, the
    spline returned is the one just built: its energies are the planned
    knots and its cross sections the integrals at those energies. *)
Theorem create_then_get (s s' : XSecSplineList) (a : XSecAlgorithmI)
    (i i' : Interaction) (nk : Z) (e_min e_max : R) :
  CreateSpline s (Some a) (Some i) nk e_min e_max = Ok (s', i') →
  SplineExistsFor s' (Some a) (Some i') = true
  ∧ (SplineExistsFor s (Some a) (Some i) = true →
     GetSplineFor s' (Some a) (Some i') = GetSplineFor s (Some a) (Some i))
  ∧ (SplineExistsFor s (Some a) (Some i) = false →
     ∃ spl, GetSplineFor s' (Some a) (Some i') = Some spl
            ∧ (Knots spl).*1
              = take (Z.to_nat (effective_nknots s nk)) (planned_knots s i nk e_min e_max)
            ∧ (Knots spl).*2 = xsec_at a i <$> (Knots spl).*1).
Proof.
  intros H. apply CreateSpline_inv in H as (a' & i0 & [= <-] & [= <-] & _ & -> & ->).
  destruct (built_spline_interaction s a i nk e_min e_max) as (Hs & _).
  assert (Hkey : BuildSplineKey (Some a) (Some (built_spline s a i nk e_min e_max).2)
                 = BuildSplineKey (Some a) (Some i)) by (simpl; by rewrite Hs).
  unfold SplineExistsFor, GetSplineFor. rewrite Hkey, !GetSpline_lookup.
  set (key := BuildSplineKey (Some a) (Some i)).
  cbn [fSplineMap with_map]. split; [|split].
  - apply SplineExists_true. cbn [fSplineMap with_map]. apply map_insert_lookup.
  - intros Hex. apply SplineExists_true in Hex. by rewrite map_insert_present.
  - intros Hex. exists (built_spline s a i nk e_min e_max).1.
    assert (Hnone : fSplineMap s !! key = None).
    { apply eq_None_not_Some. intros Hsome. apply SplineExists_true in Hsome. congruence. }
    unfold map_insert. rewrite Hnone, lookup_insert_eq.
    split; [done|]. split; [apply built_spline_energies|apply built_spline_samples].
Qed.

Lemma create_then_get_witness :
  SplineExistsFor created_store (Some sample_alg)
    (Some (built_spline XSecSplineList_ctor sample_alg sample_interaction 10 1 11).2)
  = true.
Proof.
  exact (proj1 (create_then_get XSecSplineList_ctor created_store sample_alg
                  sample_interaction _ 10 1 11 create_sample)).
Defined.

(** ** What is stored stays stored *)

Lemma map_insert_subseteq (k : string) (v : Spline) (m : gmap string Spline) :
  m ⊆ map_insert k v m.
Proof.
  unfold map_insert. destruct (m !! k) eqn:Hk; [done|]. by apply insert_subseteq.
Qed.

Lemma load_node_map (txt : TextFunctions) (n : XmlNode)
    (s : XSecSplineList) (l : LoadState) (r : flow) :
  load_node txt n s l = Ok r → fSplineMap s ⊆ fSplineMap (flow_store r).
Proof.
  intros H. apply load_node_inv in H as [(-> & _)|(s1 & l6 & s7 & l7 & -> & Hr & He)];
    simpl; [done|].
  apply on_root_inv in Hr as [[_ ->]|(_ & v & _ & ->)];
    apply on_spline_end_inv in He as [->|[spl ->]]; simpl;
    (done || apply map_insert_subseteq).
Qed.

Lemma load_nodes_map (txt : TextFunctions) (ns : list XmlNode)
    (s : XSecSplineList) (l : LoadState) (r : flow) :
  load_nodes txt ns s l = Ok r → fSplineMap s ⊆ fSplineMap (flow_store r).
Proof.
  revert s l. induction ns as [|n ns IH]; intros s l; simpl.
  - by intros [= <-].
  - destruct (load_node txt n s l) as [r1|] eqn:Hn; simpl; [|done].
    apply load_node_map in Hn. destruct r1 as [s' l'|st s']; simpl in *.
    + intros H. apply IH in H. by etrans.
    + by intros [= <-].
Qed.

Lemma LoadFromXml_keep_map (txt : TextFunctions) (fs : FileSystem)
    (s s' : XSecSplineList) (filename : string) (st : XmlParserStatus_t) :
  LoadFromXml txt fs s filename true = Ok (st, s') → fSplineMap s ⊆ fSplineMap s'.
Proof.
  unfold LoadFromXml. destruct (fs_files fs !! filename) as [f|].
  - destruct (load_nodes txt (file_nodes f) s load_init) as [r|] eqn:Hl; simpl; [|done].
    apply load_nodes_map in Hl. destruct r as [s1 l1|st1 s1]; simpl in *.
    + destruct (file_end f); by intros [= _ <-].
    + by intros [= _ <-].
  - by intros [= _ <-].
Qed.

(** X4.  No operation but a load with [keep = false] removes or replaces a
    stored spline: a key that has a spline before the operation has the same
    spline after it.  In particular a load with [keep = true] does not
    update the splines of keys that are already in the list. *)
Theorem stored_splines_stay (txt : TextFunctions) (op : Operation)
    (s s' : XSecSplineList) (key : string) (spl : Spline) :
  (∀ fs filename, op ≠ OpLoadFromXml fs filename false) →
  run txt op s = Ok s' →
  GetSpline s key = Some spl → GetSpline s' key = Some spl.
Proof.
  intros Hop Hrun. rewrite !GetSpline_lookup.
  assert (Hsub : fSplineMap s ⊆ fSplineMap s');
    [|intros Hk; by apply (lookup_weaken (fSplineMap s))].
  destruct op as [alg interaction nk e_min e_max|on|nk|Ev|Ev|fs filename save_init|fs filename keep];
    simpl in Hrun; try (by injection Hrun as <-).
  - destruct (CreateSpline s alg interaction nk e_min e_max) as [[s1 i1]|] eqn:Hc;
      simpl in Hrun; [|done].
    injection Hrun as <-.
    apply CreateSpline_inv in Hc as (a & i & _ & _ & _ & -> & _).
    apply map_insert_subseteq.
  - destruct keep; [|by destruct (Hop fs filename)].
    destruct (LoadFromXml txt fs s filename true) as [[st s1]|] eqn:Hl;
      simpl in Hrun; [|done].
    injection Hrun as <-. by apply LoadFromXml_keep_map in Hl.
Qed.

Lemma stored_splines_stay_witness :
  ∃ s', run sample_text (OpLoadFromXml update_fs "update.xml" true) loaded_store = Ok s'
        ∧ GetSpline s' sample_key = Some sample_spline.
Proof.
  eexists. split; [vm_compute; reflexivity|].
  eapply (stored_splines_stay sample_text
            (OpLoadFromXml update_fs "update.xml" true) loaded_store).
  - intros fs filename. discriminate.
  - vm_compute. reflexivity.
  - vm_compute. reflexivity.
Defined.

(** X5.  [CreateSpline] touches the map at its key only: the keys after the
    call are the keys before and the key built, every other key keeps its
    spline, and the use-log flag, the defaults and the initial set are as
    before. *)
Theorem CreateSpline_frame (s s' : XSecSplineList) (alg : option XSecAlgorithmI)
    (interaction : option Interaction) (i' : Interaction)
    (nk : Z) (e_min e_max : R) :
  CreateSpline s alg interaction nk e_min e_max = Ok (s', i') →
  dom (fSplineMap s') = {[ BuildSplineKey alg interaction ]} ∪ dom (fSplineMap s)
  ∧ (∀ k, k ≠ BuildSplineKey alg interaction →
          fSplineMap s' !! k = fSplineMap s !! k)
  ∧ fUseLogE s' = fUseLogE s ∧ fNKnots s' = fNKnots s
  ∧ fEmin s' = fEmin s ∧ fEmax s' = fEmax s ∧ fInitSet s' = fInitSet s.
Proof.
  intros H. apply CreateSpline_inv in H as (a & i & -> & -> & _ & -> & _).
  cbn [fSplineMap with_map fUseLogE fNKnots fEmin fEmax fInitSet].
  set (key := BuildSplineKey (Some a) (Some i)).
  split; [|split; [|done]].
  - unfold map_insert. destruct (fSplineMap s !! key) eqn:Hk.
    + symmetry. apply subseteq_union_1_L, singleton_subseteq_l, elem_of_dom.
      by eexists.
    + apply dom_insert_L.
  - intros k Hk. unfold map_insert. destruct (fSplineMap s !! key); [done|].
    by rewrite lookup_insert_ne.
Qed.

Lemma CreateSpline_frame_witness :
  dom (fSplineMap created_store) = {[ sample_key ]} ∪ dom (fSplineMap XSecSplineList_ctor).
Proof.
  exact (proj1 (CreateSpline_frame XSecSplineList_ctor created_store (Some sample_alg)
                  (Some sample_interaction) _ 10 1 11 create_sample)).
Defined.

(** X6.  With a requested count of 2 or less [CreateSpline] never completes
    on a list reached from the constructor: the arrays [xsec] and [E] are
    declared with the requested count, and the count that is then used is the
    default, at least 10. *)
Theorem CreateSpline_default_count_undefined (s : XSecSplineList)
    (alg : option XSecAlgorithmI) (interaction : option Interaction)
    (nk : Z) (e_min e_max : R) :
  reachable s → nk <= 2 →
  CreateSpline s alg interaction nk e_min e_max = Fault UndefinedBehaviour
  ∨ CreateSpline s alg interaction nk e_min e_max = Fault Aborted.
Proof.
  intros Hreach Hnk.
  destruct (reachable_valid_defaults s Hreach) as (_ & _ & Hn).
  unfold CreateSpline. destruct alg as [a|], interaction as [i|]; try by left.
  destruct (Z.leb_spec nk 0); [by left|].
  destruct (Rlt_dec _ _); [|by right].
  assert (Heff : effective_nknots s nk = fNKnots s).
  { unfold effective_nknots. by rewrite (proj2 (Z.leb_le nk 2)) by lia. }
  rewrite Heff, (proj2 (Z.ltb_lt nk _)) by lia. by left.
Qed.

Lemma CreateSpline_default_count_undefined_witness :
  CreateSpline XSecSplineList_ctor (Some sample_alg) (Some sample_interaction)
    (-1) (-1) (-1) = Fault UndefinedBehaviour.
Proof.
  destruct (CreateSpline_default_count_undefined XSecSplineList_ctor
              (Some sample_alg) (Some sample_interaction) (-1) (-1) (-1)
              reachable_ctor ltac:(lia)) as [H|H]; [exact H|].
  exfalso. revert H. unfold CreateSpline. simpl. discriminate.
Defined.

(** ** The list of keys *)

#[local] Instance key_le_total : Total key_le.
Proof. intros a b. apply String.leb_total. Qed.

(** X7.  [GetSplineKeys] returns the keys of the stored splines, each once,
    in non-decreasing order, as many as there are splines. *)
Theorem GetSplineKeys_spec (s : XSecSplineList) :
  (∀ k, k ∈ GetSplineKeys s ↔ SplineExists s k = true)
  ∧ NoDup (GetSplineKeys s)
  ∧ Sorted (λ a b, String.leb a b = true) (GetSplineKeys s)
  ∧ length (GetSplineKeys s) = size (fSplineMap s).
Proof.
  unfold GetSplineKeys. split; [|split; [|split]].
  - intros k. rewrite SplineExists_true, sorted_entries_Permutation.
    rewrite list_elem_of_fmap. split.
    + intros ([k' spl] & -> & Hin). apply elem_of_map_to_list in Hin. by eexists.
    + intros [spl Hspl]. exists (k, spl). split; [done|]. by apply elem_of_map_to_list.
  - rewrite sorted_entries_Permutation. apply NoDup_fst_map_to_list.
  - apply (Sorted_fmap fst key_le); [done|]. apply Sorted_merge_sort, key_le_total.
  - rewrite length_fmap, sorted_entries_Permutation. apply length_map_to_list.
Qed.

(** ** A threshold beyond the upper bound *)

(** X10.  A threshold above the upper bound is not rejected: on a list
    reached from the constructor, with at least seven knots asked for,
    [CreateSpline] completes, and the spline it builds has [nknots] knots,
    the first five of them computed by the sub-threshold loop over the range
    from [Emin] to the threshold, which ends beyond [Emax]. *)
Theorem threshold_above_range (s : XSecSplineList) (a : XSecAlgorithmI)
    (i : Interaction) (nk : Z) (e_min e_max : R) :
  let Emin := effective_emin s e_min in
  let Emax := effective_emax s e_max in
  let Ethr := Threshold i in
  let E := (Knots (built_spline s a i nk e_min e_max).1).*1 in
  reachable s → (Emin < Emax)%R → (Emax < Ethr)%R → 7 <= nk →
  CreateSpline s (Some a) (Some i) nk e_min e_max
  = Ok (with_map s (map_insert (BuildSplineKey (Some a) (Some i))
                      (built_spline s a i nk e_min e_max).1 (fSplineMap s)),
        (built_spline s a i nk e_min e_max).2)
  ∧ length E = Z.to_nat nk
  ∧ take 5 E = knots_below 5 Emin ((Ethr - Emin) / 5)
  ∧ E !! 0%nat = Some Emin.
Proof.
  intros Emin Emax Ethr E Hreach Hlt Hthr Hn.
  pose proof (effective_emin_nonneg s e_min (reachable_valid_defaults s Hreach)) as H0.
  fold Emin in H0.
  assert (Hlo : (Emin < Ethr)%R) by lra.
  assert (Hc : knots_below_count Ethr Emin = 5) by by apply knots_below_count_between.
  assert (Hmax : Rmax Ethr Emin = Ethr) by (apply Rmax_left; lra).
  assert (Hnk : effective_nknots s nk = nk) by (apply effective_nknots_requested; lia).
  assert (HE : E = planned_knots s i nk e_min e_max).
  { unfold E. rewrite built_spline_energies. apply take_ge.
    rewrite length_planned_between by (done || lia). lia. }
  assert (Htake : take 5 E = knots_below 5 Emin ((Ethr - Emin) / 5)).
  { rewrite HE, planned_knots_between by (done || lia).
    rewrite take_app_length' by (by rewrite length_knots_below). done. }
  split; [|split; [|split; [done|]]].
  - apply CreateSpline_Ok. unfold CreateSpline_completes. fold Emin Emax Ethr.
    rewrite Hnk, Hc. split; [lia|]. split; [done|]. split; [lia|].
    apply stays_in_the_reals; [lia|]. intros _. rewrite Hmax. lra.
  - rewrite HE. apply length_planned_between; [done|lia].
  - rewrite <- (lookup_take_lt E 5 0) by lia. rewrite Htake.
    rewrite knots_below_lookup by lia. f_equal. simpl. ring.
Qed.

Lemma threshold_above_range_witness :
  length (Knots (built_spline XSecSplineList_ctor sample_alg sample_interaction 10 1 5).1).*1
  = Z.to_nat 10
  ∧ (Knots (built_spline XSecSplineList_ctor sample_alg sample_interaction 10 1 5).1).*1
      !! 0%nat = Some (effective_emin XSecSplineList_ctor 1).
Proof.
  destruct (threshold_above_range XSecSplineList_ctor sample_alg sample_interaction 10 1 5)
    as (_ & Hlen & _ & H0).
  - apply reachable_ctor.
  - unfold effective_emin, effective_emax. simpl. decide_reals.
  - unfold effective_emax. simpl. decide_reals.
  - lia.
  - split; [exact Hlen | exact H0].
Defined.

(** ** The interaction after the call *)

(** X12.  [CreateSpline] changes the interaction it is given: when it
    completes, the interaction is left with the probe four-momentum that the
    integration loop set for the energy of the last knot of the spline it
    built, and is otherwise unchanged. *)
Theorem CreateSpline_leaves_probe (s s' : XSecSplineList) (a : XSecAlgorithmI)
    (i i' : Interaction) (nk : Z) (e_min e_max : R) :
  CreateSpline s (Some a) (Some i) nk e_min e_max = Ok (s', i') →
  i' = match last (Knots (built_spline s a i nk e_min e_max).1).*1 with
       | Some e => SetProbeP4 i (probe_p4 (ProbeMass i) e)
       | None => i
       end.
Proof.
  intros H.
  apply CreateSpline_inv in H as (a' & i0 & [= <-] & [= <-] & _ & _ & ->).
  rewrite built_spline_energies. unfold built_spline.
  pose proof (integrate_last a (ProbeMass i)
    (take (Z.to_nat (effective_nknots s nk)) (planned_knots s i nk e_min e_max)) i) as Hi.
  by destruct (integrate _ _ _ _) as [xs i2].
Qed.

Lemma CreateSpline_leaves_probe_witness :
  (built_spline XSecSplineList_ctor sample_alg sample_interaction 10 1 11).2
  = match last (Knots (built_spline XSecSplineList_ctor sample_alg
                         sample_interaction 10 1 11).1).*1 with
    | Some e => SetProbeP4 sample_interaction
                  (probe_p4 (ProbeMass sample_interaction) e)
    | None => sample_interaction
    end.
Proof.
  exact (CreateSpline_leaves_probe XSecSplineList_ctor created_store sample_alg
           sample_interaction _ 10 1 11 create_sample).
Defined.

(** ** What a load does to the store *)

(** Whatever the file holds, a load changes the store only by [SetLogE] and
    by the insertion of a spline with the marking of its key. *)
Lemma load_nodes_invariant (P : XSecSplineList → Prop) (txt : TextFunctions) :
  (∀ s on, P s → P (SetLogE s on)) →
  (∀ s name spl, P s →
     P (with_init (with_map s (map_insert name spl (fSplineMap s)))
          ({[ name ]} ∪ fInitSet s))) →
  ∀ (ns : list XmlNode) (s : XSecSplineList) (l : LoadState) (r : flow),
  P s → load_nodes txt ns s l = Ok r → P (flow_store r).
Proof.
  intros Hlog Hins ns. induction ns as [|n ns IH]; intros s l r Hs; simpl.
  - by intros [= <-].
  - destruct (load_node txt n s l) as [r1|] eqn:Hn; simpl; [|done].
    assert (H1 : P (flow_store r1)).
    { apply load_node_inv in Hn as [(-> & _)|(s1 & l6 & s7 & l7 & -> & Hr & He)];
        simpl; [done|].
      apply on_root_inv in Hr as [[_ ->]|(_ & v & _ & ->)];
        apply on_spline_end_inv in He as [->|[spl ->]]; auto. }
    destruct r1 as [s' l'|st s']; simpl in *.
    + by apply IH.
    + by intros [= <-].
Qed.

Lemma LoadFromXml_invariant (P : XSecSplineList → Prop) (txt : TextFunctions)
    (fs : FileSystem) (s s' : XSecSplineList) (filename : string) (keep : bool)
    (st : XmlParserStatus_t) :
  (∀ s on, P s → P (SetLogE s on)) →
  (∀ s name spl, P s →
     P (with_init (with_map s (map_insert name spl (fSplineMap s)))
          ({[ name ]} ∪ fInitSet s))) →
  P (if keep then s else with_map s ∅) →
  LoadFromXml txt fs s filename keep = Ok (st, s') → P s'.
Proof.
  intros Hlog Hins Hs0. unfold LoadFromXml.
  destruct (fs_files fs !! filename) as [f|].
  - destruct (load_nodes txt (file_nodes f) _ load_init) as [r|] eqn:Hl; simpl; [|done].
    apply (load_nodes_invariant P txt Hlog Hins) in Hl; [|done].
    destruct r as [s1 l1|st1 s1]; simpl in *.
    + destruct (file_end f); by intros [= _ <-].
    + by intros [= _ <-].
  - by intros [= _ <-].
Qed.

Lemma dom_map_insert (k : string) (v : Spline) (m : gmap string Spline) :
  dom (map_insert k v m) = {[ k ]} ∪ dom m.
Proof.
  unfold map_insert. destruct (m !! k) eqn:Hk.
  - symmetry. apply subseteq_union_1_L, singleton_subseteq_l, elem_of_dom. by eexists.
  - by rewrite dom_insert_L.
Qed.

Lemma LoadFromXml_marks (txt : TextFunctions) (fs : FileSystem)
    (s s' : XSecSplineList) (filename : string) (keep : bool) (st : XmlParserStatus_t) :
  LoadFromXml txt fs s filename keep = Ok (st, s') →
  dom (fSplineMap s') ⊆ (if keep then dom (fSplineMap s) else ∅) ∪ fInitSet s'.
Proof.
  apply (LoadFromXml_invariant
    (λ t, dom (fSplineMap t) ⊆ (if keep then dom (fSplineMap s) else ∅) ∪ fInitSet t)).
  - done.
  - intros t name spl Ht. cbn [fSplineMap fInitSet with_init with_map].
    rewrite dom_map_insert. intros x Hx.
    apply elem_of_union in Hx as [Hx|Hx].
    + by apply elem_of_union_r, elem_of_union_l.
    + apply Ht, elem_of_union in Hx as [Hx|Hx]; [by apply elem_of_union_l|].
      by apply elem_of_union_r, elem_of_union_r.
  - destruct keep; cbn [fSplineMap with_map]; [apply union_subseteq_l|].
    rewrite dom_empty_L. apply union_subseteq_l.
Qed.

(** X13.  A load that returns, with whatever status, leaves the list values
    [fNKnots], [fEmin] and [fEmax] as they were, and every key found in the
    store afterwards either was there before (possible only with
    [keep = true]) or is marked in the initial set. *)
Theorem LoadFromXml_frame (txt : TextFunctions) (fs : FileSystem)
    (s s' : XSecSplineList) (filename : string) (keep : bool) (st : XmlParserStatus_t) :
  LoadFromXml txt fs s filename keep = Ok (st, s') →
  fNKnots s' = fNKnots s ∧ fEmin s' = fEmin s ∧ fEmax s' = fEmax s
  ∧ ∀ key, SplineExists s' key = true →
           (keep = true ∧ SplineExists s key = true) ∨ key ∈ fInitSet s'.
Proof.
  intros H. split; [|split; [|split]].
  - revert H. apply (LoadFromXml_invariant (λ t, fNKnots t = fNKnots s)); try done.
    by destruct keep.
  - revert H. apply (LoadFromXml_invariant (λ t, fEmin t = fEmin s)); try done.
    by destruct keep.
  - revert H. apply (LoadFromXml_invariant (λ t, fEmax t = fEmax s)); try done.
    by destruct keep.
  - intros key Hkey. apply SplineExists_true, elem_of_dom in Hkey.
    apply LoadFromXml_marks in H. apply H in Hkey.
    apply elem_of_union in Hkey as [Hold|Hnew]; [|by right].
    left. destruct keep; [|set_solver]. split; [done|].
    by apply SplineExists_true, elem_of_dom.
Qed.

Lemma LoadFromXml_frame_witness :
  fNKnots reloaded_store = fNKnots loaded_store
  ∧ (SplineExists reloaded_store "genie::DISXSec/Default/nu:14" = true →
     (false = true ∧ SplineExists loaded_store "genie::DISXSec/Default/nu:14" = true)
     ∨ "genie::DISXSec/Default/nu:14" ∈ fInitSet reloaded_store).
Proof.
  destruct (LoadFromXml_frame sample_text sample_fs loaded_store reloaded_store
              "other.xml" false kXmlOK) as (Hn & _ & _ & Hkeys).
  - vm_compute. reflexivity.
  - split; [exact Hn | exact (Hkeys _)].
Defined.

(** X14.  Directly after a load with [keep = false] every stored spline is
    marked, so a save with [save_init = false] skips every entry: it writes
    a list without splines. *)
Theorem fresh_load_saves_nothing (txt : TextFunctions) (fs : FileSystem)
    (s s' : XSecSplineList) (filename : string) (st : XmlParserStatus_t) :
  LoadFromXml txt fs s filename false = Ok (st, s') →
  dom (fSplineMap s') ⊆ fInitSet s' ∧ saved_entries s' false = [].
Proof.
  intros H. apply LoadFromXml_marks in H.
  assert (Hdom : dom (fSplineMap s') ⊆ fInitSet s') by by rewrite union_empty_l_L in H.
  split; [done|]. by apply saved_entries_all_init.
Qed.

Lemma fresh_load_saves_nothing_witness :
  saved_entries reloaded_store false = [].
Proof.
  apply (fresh_load_saves_nothing sample_text sample_fs loaded_store reloaded_store
           "other.xml" kXmlOK).
  vm_compute. reflexivity.
Defined.

(** X15.  A node at which none of the tests of the reading loop holds (a
    comment at any depth, white space outside a knot value, an unknown
    element below the root) can stand anywhere in a file: the load gives the
    same result as on the file without it. *)
Theorem inert_node_skipped (txt : TextFunctions) (fs fs' : FileSystem)
    (s : XSecSplineList) (filename : string) (keep : bool)
    (front back : list XmlNode) (n : XmlNode) (fin : ReadEnd) :
  inert n = true →
  fs_files fs !! filename = Some (mkFile (front ++ n :: back) fin) →
  fs_files fs' !! filename = Some (mkFile (front ++ back) fin) →
  LoadFromXml txt fs s filename keep = LoadFromXml txt fs' s filename keep.
Proof.
  intros Hn Hf Hf'. unfold LoadFromXml. rewrite Hf, Hf'. cbn [file_nodes file_end].
  rewrite !load_nodes_app.
  destruct (load_nodes txt front _ load_init) as [[s1 l1|st1 s1]|f]; simpl; [|done|done].
  by rewrite (load_node_inert txt n s1 l1 Hn).
Qed.

Lemma inert_node_skipped_witness :
  inert (mkNode "#comment" " knots follow " 8 2 []) = true
  ∧ LoadFromXml sample_text
      (mkFS {[ "a.xml" := mkFile
                 (take 3 (file_nodes (file_of_document sample_document))
                  ++ mkNode "#comment" " knots follow " 8 2 []
                  :: drop 3 (file_nodes (file_of_document sample_document)))
                 EndOfDocument ]} (λ _, true))
      XSecSplineList_ctor "a.xml" false
    = LoadFromXml sample_text
        (mkFS {[ "a.xml" := mkFile
                   (take 3 (file_nodes (file_of_document sample_document))
                    ++ drop 3 (file_nodes (file_of_document sample_document)))
                   EndOfDocument ]} (λ _, true))
        XSecSplineList_ctor "a.xml" false.
Proof.
  split; [reflexivity|].
  apply (inert_node_skipped sample_text _ _ XSecSplineList_ctor "a.xml" false
           (take 3 (file_nodes (file_of_document sample_document)))
           (drop 3 (file_nodes (file_of_document sample_document)))
           (mkNode "#comment" " knots follow " 8 2 []) EndOfDocument).
  - reflexivity.
  - reflexivity.
  - reflexivity.
Defined.

(** ** Files of well-formed spline elements *)

Section SplineFiles.
Context (txt : TextFunctions).

Lemma load_text_knot (s : XSecSplineList) (vt n : Z)
    (name : string) (doneE doneX : list R) (m : nat) (k : string * string)
    (rest : list XmlNode) :
  length doneX = length doneE →
  load_nodes txt (reader_nodes 2 (knot_element k.1 k.2) ++ rest) s
    {| val_type := vt; iknot := Z.of_nat (length doneE); nknots := n;
       E := Some ((Some <$> doneE) ++ replicate (S m) None);
       xsec := Some ((Some <$> doneX) ++ replicate (S m) None);
       spline_name := name |}
  = load_nodes txt rest s
      {| val_type := kKnotY; iknot := Z.of_nat (length (doneE ++ [atof txt k.1]));
         nknots := n;
         E := Some ((Some <$> (doneE ++ [atof txt k.1])) ++ replicate m None);
         xsec := Some ((Some <$> (doneX ++ [atof txt k.2])) ++ replicate m None);
         spline_name := name |}.
Proof.
  intros Hlen. unfold knot_element. cbn [reader_nodes flat_map app].
  change (2 + 1) with 3. change (3 + 1) with 4.
  erewrite load_nodes_step by (by apply load_node_inert).
  rewrite (load_nodes_step txt _ _ _ _ _ _ (load_node_E_start txt s _)).
  erewrite load_nodes_step
    by (by apply load_node_E_text; [|apply store_next_cell]).
  erewrite load_nodes_step by (by apply load_node_inert).
  rewrite (load_nodes_step txt _ _ _ _ _ _ (load_node_xsec_start txt s _)).
  erewrite load_nodes_step
    by (by apply load_node_xsec_text;
          [|cbn [xsec iknot set_val_type set_E]; rewrite <- Hlen; apply store_next_cell]).
  erewrite load_nodes_step by (by apply load_node_inert).
  rewrite (load_nodes_step txt _ _ _ _ _ _ (load_node_knot_end txt s _)).
  unfold next_knot, set_xsec, set_E, set_val_type.
  cbn [val_type iknot nknots E xsec spline_name].
  do 2 f_equal. rewrite length_app. simpl. lia.
Qed.

Lemma load_text_knots (s : XSecSplineList) (n : Z)
    (name : string) (ks : list (string * string)) (m : nat) (rest : list XmlNode) :
  ∀ (vt : Z) (doneE doneX : list R),
  length doneX = length doneE →
  ∃ vt',
    load_nodes txt
      (flat_map (reader_nodes 2) ((λ k : string * string, knot_element k.1 k.2) <$> ks)
       ++ rest) s
      {| val_type := vt; iknot := Z.of_nat (length doneE); nknots := n;
         E := Some ((Some <$> doneE) ++ replicate (length ks + m) None);
         xsec := Some ((Some <$> doneX) ++ replicate (length ks + m) None);
         spline_name := name |}
    = load_nodes txt rest s
        {| val_type := vt';
           iknot := Z.of_nat (length (doneE ++ (atof txt <$> ks.*1)));
           nknots := n;
           E := Some ((Some <$> (doneE ++ (atof txt <$> ks.*1))) ++ replicate m None);
           xsec := Some ((Some <$> (doneX ++ (atof txt <$> ks.*2))) ++ replicate m None);
           spline_name := name |}.
Proof.
  induction ks as [|k ks IH]; intros vt doneE doneX Hlen.
  - exists vt. simpl. by rewrite !app_nil_r.
  - cbn [fmap list_fmap flat_map length Nat.add]. rewrite <- app_assoc.
    rewrite load_text_knot by done.
    destruct (IH kKnotY (doneE ++ [atof txt k.1]) (doneX ++ [atof txt k.2]))
      as [vt' Hks]; [rewrite !length_app; simpl; lia|].
    exists vt'. rewrite Hks. by rewrite <- !app_assoc.
Qed.

Lemma reader_nodes_spline_element (e : SplineText) :
  reader_nodes 1 (spline_element e)
  = mkNode "spline" "" kNodeTypeStartElement 1
      [("name", text_name e); ("nknots", text_count e)]
    :: flat_map (reader_nodes 2)
         ((λ k : string * string, knot_element k.1 k.2) <$> text_knots e)
    ++ [mkNode "spline" "" kNodeTypeEndElement 1 []].
Proof. reflexivity. Qed.

Lemma text_spline_new (ks : list (string * string)) :
  Spline_new (Z.of_nat (length ks)) (atof txt <$> ks.*1) (atof txt <$> ks.*2)
  = text_spline txt ks.
Proof.
  unfold Spline_new, text_spline. f_equal.
  rewrite Nat2Z.id, !take_ge by (rewrite !length_fmap; lia).
  induction ks as [|[e x] ks IH]; [done|].
  cbn [fmap list_fmap zip zip_with fst snd]. by rewrite <- IH.
Qed.

(** One well-formed [spline] element is loaded as [load_text_entry] says. *)
Lemma load_text_block (s : XSecSplineList) (l : LoadState)
    (e : SplineText) (rest : list XmlNode) :
  declared_count txt e = Z.of_nat (length (text_knots e)) →
  ∃ l', load_nodes txt (reader_nodes 1 (spline_element e) ++ rest) s l
        = load_nodes txt rest (load_text_entry txt s e) l'.
Proof.
  intros Hcount. unfold declared_count in Hcount.
  rewrite reader_nodes_spline_element. cbn [app].
  erewrite load_nodes_step
    by (apply load_node_spline_start; rewrite Hcount; lia).
  rewrite Hcount, Nat2Z.id, <- app_assoc.
  destruct (load_text_knots s (Z.of_nat (length (text_knots e)))
              (TrimSpaces txt (text_name e)) (text_knots e) 0
              ([mkNode "spline" "" kNodeTypeEndElement 1 []] ++ rest)
              (val_type l) [] [] eq_refl) as [vt' Hks].
  cbn [fmap list_fmap app length] in Hks. rewrite Nat.add_0_r in Hks.
  change (Z.of_nat 0) with 0 in Hks. cbn [app].
  rewrite Hks.
  erewrite load_nodes_step
    by (apply load_node_spline_end; apply read_written_cells).
  cbn [nknots spline_name]. rewrite text_spline_new. by eexists.
Qed.

Lemma load_text_blocks (entries : list SplineText) (rest : list XmlNode) :
  Forall (λ e, declared_count txt e = Z.of_nat (length (text_knots e))) entries →
  ∀ (s : XSecSplineList) (l : LoadState),
  ∃ l', load_nodes txt
          (flat_map (reader_nodes 1) (spline_element <$> entries) ++ rest) s l
        = load_nodes txt rest (foldl (load_text_entry txt) s entries) l'.
Proof.
  induction 1 as [|e entries He _ IH]; intros s l.
  - by exists l.
  - cbn [fmap list_fmap flat_map foldl]. rewrite <- app_assoc.
    destruct (load_text_block s l e
                (flat_map (reader_nodes 1) (spline_element <$> entries) ++ rest) He)
      as [l1 H1].
    rewrite H1. apply IH.
Qed.

Lemma load_nodes_fault (n : XmlNode) (rest : list XmlNode)
    (s : XSecSplineList) (l : LoadState) (f : fault) :
  load_node txt n s l = Fault f → load_nodes txt (n :: rest) s l = Fault f.
Proof. intros H. simpl. by rewrite H. Qed.

Lemma load_node_spline_start_negative (s : XSecSplineList)
    (l : LoadState) (name count : string) :
  atoi (TrimSpaces txt count) < 0 →
  load_node txt (mkNode "spline" "" kNodeTypeStartElement 1
                   [("name", name); ("nknots", count)]) s l
  = Fault Aborted.
Proof.
  intros Hn. unfold load_node, on_root, on_spline_start, new_double. simpl.
  by rewrite (proj2 (Z.ltb_lt _ 0) Hn).
Qed.

Lemma store_cell_full (vs : list R) (v : R) :
  store_cell (Some ((Some <$> vs) ++ replicate 0 None)) (Z.of_nat (length vs)) v
  = Fault UndefinedBehaviour.
Proof.
  unfold store_cell. rewrite length_app, length_fmap, length_replicate.
  rewrite (proj2 (Z.ltb_ge _ _)) by lia. by rewrite andb_false_r.
Qed.

Lemma load_node_E_text_fault (s : XSecSplineList)
    (l : LoadState) (v : string) (f : fault) :
  val_type l = kKnotX →
  store_cell (E l) (iknot l) (atof txt v) = Fault f →
  load_node txt (mkNode "#text" v 3 4 []) s l = Fault f.
Proof.
  intros Hv Hb. unfold load_node, on_root, on_spline_start, on_value_tag,
    on_text, on_knot_end, on_spline_end; simpl; by rewrite Hv, Hb.
Qed.

Lemma read_cells_unwritten (vs : list R) (m : nat) :
  read_cells (Some ((Some <$> vs) ++ replicate (S m) None)) = Fault UndefinedBehaviour.
Proof.
  unfold read_cells.
  destruct (mapM (M := option) (λ c : option R, c)
              ((Some <$> vs) ++ replicate (S m) None)) as [ws|] eqn:Hm; [|done].
  assert (His : is_Some (mapM (M := option) (λ c : option R, c)
                           ((Some <$> vs) ++ replicate (S m) None))) by by eexists.
  apply mapM_is_Some in His. apply Forall_app in His as [_ His].
  apply Forall_cons in His as [[w Hw] _]. done.
Qed.

Lemma load_node_spline_end_fault (s : XSecSplineList) (l : LoadState) (f : fault) :
  read_cells (E l) = Fault f →
  load_node txt (mkNode "spline" "" kNodeTypeEndElement 1 []) s l = Fault f.
Proof.
  intros He. unfold load_node, on_root, on_spline_start, on_value_tag, on_text,
    on_knot_end, on_spline_end. simpl. by rewrite He.
Qed.

(** A [spline] element whose declared knot count is not the number of its
    [knot] elements stops the load. *)
Lemma load_bad_block (s : XSecSplineList) (l : LoadState)
    (e : SplineText) (rest : list XmlNode) :
  declared_count txt e ≠ Z.of_nat (length (text_knots e)) →
  load_nodes txt (reader_nodes 1 (spline_element e) ++ rest) s l
  = Fault (if declared_count txt e <? 0 then Aborted else UndefinedBehaviour).
Proof.
  intros Hcount. unfold declared_count in *.
  set (c := atoi (TrimSpaces txt (text_count e))) in *.
  rewrite reader_nodes_spline_element. cbn [app].
  destruct (Z.ltb_spec c 0) as [Hneg|Hpos].
  { apply load_nodes_fault. by apply load_node_spline_start_negative. }
  erewrite load_nodes_step by (by apply load_node_spline_start).
  fold c. rewrite <- app_assoc.
  destruct (decide (c < Z.of_nat (length (text_knots e)))) as [Hfew|Hmany].
  - (* fewer cells than knots: the knot after the last cell is written
       beyond the arrays *)
    assert (Hsplit : ∃ k, text_knots e !! Z.to_nat c = Some k).
    { apply lookup_lt_is_Some. lia. }
    destruct Hsplit as [k Hk].
    rewrite <- (take_drop_middle (text_knots e) (Z.to_nat c) k Hk).
    rewrite fmap_app, flat_map_app, <- app_assoc.
    assert (Hlen : length (take (Z.to_nat c) (text_knots e)) = Z.to_nat c)
      by (rewrite length_take; lia).
    destruct (load_text_knots s c (TrimSpaces txt (text_name e))
                (take (Z.to_nat c) (text_knots e)) 0
                (flat_map (reader_nodes 2)
                   ((λ k : string * string, knot_element k.1 k.2)
                      <$> k :: drop (S (Z.to_nat c)) (text_knots e))
                 ++ [mkNode "spline" "" kNodeTypeEndElement 1 []] ++ rest)
                (val_type l) [] [] eq_refl) as [vt' Hks].
    rewrite Hlen, Nat.add_0_r in Hks. cbn [fmap list_fmap app length] in Hks |- *.
    change (Z.of_nat 0) with 0 in Hks. rewrite Hks.
    cbn [flat_map]. unfold knot_element at 1.
    cbn [reader_nodes flat_map app]. change (2 + 1) with 3. change (3 + 1) with 4.
    erewrite load_nodes_step by (by apply load_node_inert).
    rewrite (load_nodes_step txt _ _ _ _ _ _ (load_node_E_start txt s _)).
    apply load_nodes_fault, load_node_E_text_fault; [done|].
    cbn [E iknot set_val_type]. apply store_cell_full.
  - (* more cells than knots: the constructor of the spline reads cells
       that were never written *)
    assert (Hm : ∃ m, Z.to_nat c = (length (text_knots e) + S m)%nat).
    { exists (Z.to_nat c - length (text_knots e) - 1)%nat. lia. }
    destruct Hm as [m Hm]. rewrite Hm.
    destruct (load_text_knots s c (TrimSpaces txt (text_name e))
                (text_knots e) (S m)
                ([mkNode "spline" "" kNodeTypeEndElement 1 []] ++ rest)
                (val_type l) [] [] eq_refl) as [vt' Hks].
    cbn [fmap list_fmap app length] in Hks. cbn [app].
    change (Z.of_nat 0) with 0 in Hks. rewrite Hks.
    apply load_nodes_fault, load_node_spline_end_fault.
    cbn [E]. apply read_cells_unwritten.
Qed.

End SplineFiles.

Lemma well_counted_counts (txt : TextFunctions) (entries : list SplineText) :
  Forall (well_counted txt) entries →
  Forall (λ e, declared_count txt e = Z.of_nat (length (text_knots e))) entries.
Proof. intros H. eapply Forall_impl; [exact H|]. by intros e [_ He]. Qed.

(** X16.  A file whose root element holds well-formed [spline] elements,
    each declaring as many knots as it has, all numerals fitting an [int],
    is loaded with status [kXmlOK]: the flag is taken from [uselog], and the
    elements are stored one after the other, each under its trimmed name
    unless that key is already in the store, with the knot values that
    [atof] reads, and each name is marked. *)
Theorem LoadFromXml_spline_list (txt : TextFunctions) (fs : FileSystem)
    (s : XSecSplineList) (filename : string) (keep : bool)
    (version uselog : string) (entries : list SplineText) :
  fs_files fs !! filename
  = Some (file_of_document
            (spline_list_document version uselog (spline_element <$> entries))) →
  fits_int (atoi (TrimSpaces txt uselog)) →
  Forall (well_counted txt) entries →
  LoadFromXml txt fs s filename keep
  = Ok (kXmlOK,
        foldl (load_text_entry txt)
          (SetLogE (if keep then s else with_map s ∅)
             (atoi (TrimSpaces txt uselog) =? 1))
          entries).
Proof.
  intros Hf _ Hcount. apply well_counted_counts in Hcount.
  unfold LoadFromXml. rewrite Hf.
  unfold file_of_document, spline_list_document.
  cbn [file_nodes file_end flat_map reader_nodes app]. rewrite app_nil_r.
  set (s0 := if keep then s else with_map s ∅).
  change (0 + 1) with 1.
  rewrite (load_nodes_step txt _ _ _ _ _ _
             (load_node_root txt s0 load_init version uselog)).
  destruct (load_text_blocks txt entries
              [mkNode root_name "" kNodeTypeEndElement 0 []] Hcount
              (SetLogE s0 (atoi (TrimSpaces txt uselog) =? 1)) load_init) as [l' Hl].
  rewrite Hl.
  erewrite load_nodes_step by (by apply load_node_inert).
  reflexivity.
Qed.

Lemma LoadFromXml_spline_list_witness :
  LoadFromXml sample_text update_fs loaded_store "update.xml" true
  = Ok (kXmlOK,
        foldl (load_text_entry sample_text)
          (SetLogE loaded_store (atoi (TrimSpaces sample_text "1") =? 1))
          [mkSplineText sample_key "1" [("5", "50")]]).
Proof.
  apply (LoadFromXml_spline_list sample_text update_fs loaded_store "update.xml" true
           "2.00" "1" [mkSplineText sample_key "1" [("5", "50")]]).
  - reflexivity.
  - split; vm_compute; discriminate.
  - constructor; [|constructor].
    split; [split; vm_compute; discriminate|vm_compute; reflexivity].
Defined.

(** X17.  A [spline] element whose [nknots] attribute (a numeral that fits
    an [int]) is not the number of its [knot] elements takes the load out of
    defined behaviour, also after well-formed elements: with a negative
    count the allocation throws and nothing catches the exception; with a
    count that is too small a knot value is written beyond the arrays; with
    one that is too large the spline is built from cells that were never
    written.  The last two are undefined behaviour: the model ends there
    with a fault, a compiled loader may run on. *)
Theorem LoadFromXml_count_mismatch (txt : TextFunctions) (fs : FileSystem)
    (s : XSecSplineList) (filename : string) (keep : bool)
    (version uselog : string) (good : list SplineText) (bad : SplineText)
    (others : list Xml) :
  fs_files fs !! filename
  = Some (file_of_document
            (spline_list_document version uselog
               ((spline_element <$> good) ++ spline_element bad :: others))) →
  fits_int (atoi (TrimSpaces txt uselog)) →
  Forall (well_counted txt) good →
  fits_int (declared_count txt bad) →
  declared_count txt bad ≠ Z.of_nat (length (text_knots bad)) →
  LoadFromXml txt fs s filename keep
  = Fault (if declared_count txt bad <? 0 then Aborted else UndefinedBehaviour).
Proof.
  intros Hf _ Hgood _ Hbad. apply well_counted_counts in Hgood.
  unfold LoadFromXml. rewrite Hf.
  unfold file_of_document, spline_list_document.
  cbn [file_nodes file_end flat_map reader_nodes app]. rewrite app_nil_r.
  set (s0 := if keep then s else with_map s ∅).
  change (0 + 1) with 1.
  rewrite (load_nodes_step txt _ _ _ _ _ _
             (load_node_root txt s0 load_init version uselog)).
  rewrite flat_map_app, <- app_assoc.
  destruct (load_text_blocks txt good
              (flat_map (reader_nodes 1) (spline_element bad :: others)
               ++ [mkNode root_name "" kNodeTypeEndElement 0 []]) Hgood
              (SetLogE s0 (atoi (TrimSpaces txt uselog) =? 1)) load_init) as [l' Hl].
  rewrite Hl. cbn [flat_map]. rewrite <- app_assoc.
  by rewrite load_bad_block.
Qed.

Lemma LoadFromXml_count_mismatch_witness :
  LoadFromXml sample_text
    (mkFS {[ "short.xml" := file_of_document
               (spline_list_document "2.00" "1"
                  [spline_element (mkSplineText sample_key "1" [("5", "50"); ("6", "60")])]) ]}
       (λ _, true))
    XSecSplineList_ctor "short.xml" false
  = Fault UndefinedBehaviour.
Proof.
  apply (LoadFromXml_count_mismatch sample_text _ XSecSplineList_ctor "short.xml" false
           "2.00" "1" [] (mkSplineText sample_key "1" [("5", "50"); ("6", "60")]) []).
  - reflexivity.
  - split; vm_compute; discriminate.
  - constructor.
  - split; vm_compute; discriminate.
  - vm_compute. discriminate.
Defined.

(** ** The entries a save writes *)

Lemma String_leb_trans (a b c : string) :
  String.leb a b = true → String.leb b c = true → String.leb a c = true.
Proof.
  intros Hab Hbc. apply Is_true_true. apply Is_true_true in Hab, Hbc.
  change (String.le a c). by trans b.
Qed.

#[local] Instance key_le_trans : Transitive key_le.
Proof. intros a b c. apply String_leb_trans. Qed.

Lemma StronglySorted_filter {A} (rel : relation A) (P : A → Prop)
    `{!∀ x, Decision (P x)} (l : list A) :
  StronglySorted rel l → StronglySorted rel (filter P l).
Proof.
  induction 1 as [|x l Hl IH Hx]; [constructor|].
  destruct (decide (P x)).
  - rewrite filter_cons_True by done. constructor; [done|].
    apply Forall_forall. intros y Hy. apply list_elem_of_filter in Hy as [_ Hy].
    by apply (proj1 (Forall_forall _ _) Hx).
  - by rewrite filter_cons_False.
Qed.

(** X18.  The entries that [SaveAsXml] hands to [Spline::SaveAsXml] are the
    entries of the map whose key is not marked, or all of them when
    [save_init] is set; each key is written once, and they are written in
    the order of their keys. *)
Theorem saved_entries_spec (s : XSecSplineList) (save_init : bool) :
  (∀ k spl, (k, spl) ∈ saved_entries s save_init
            ↔ fSplineMap s !! k = Some spl ∧ (save_init = true ∨ k ∉ fInitSet s))
  ∧ NoDup (saved_entries s save_init).*1
  ∧ StronglySorted (λ a b, String.leb a b = true) (saved_entries s save_init).*1.
Proof.
  unfold saved_entries. split; [|split].
  - intros k spl. rewrite list_elem_of_filter, sorted_entries_Permutation.
    rewrite elem_of_map_to_list. cbn [fst]. split.
    + intros [Hnot Hin]. split; [done|].
      destruct save_init; [by left|right]. intros Hk. by apply Hnot.
    + intros [Hin Hsave]. split; [|done]. intros [Hk Hfalse].
      destruct Hsave as [->|Hnk]; [done|]. by apply Hnk.
  - apply (NoDup_fmap_fst _).
    + intros k spl1 spl2 H1 H2.
      apply list_elem_of_filter in H1 as [_ H1], H2 as [_ H2].
      rewrite sorted_entries_Permutation in H1, H2.
      apply elem_of_map_to_list in H1, H2. congruence.
    + apply NoDup_filter. rewrite sorted_entries_Permutation. apply NoDup_map_to_list.
  - apply (StronglySorted_fmap fst key_le); [done|].
    apply StronglySorted_filter, StronglySorted_merge_sort;
      [apply key_le_trans|apply key_le_total].
Qed.

(** ** A file cut short *)

(** X19.  Nothing is rolled back on a parse error: when the reader fails
    right after well-formed [spline] elements (all numerals fitting an
    [int]), the load returns [kXmlNotParsed] and the splines read so far are
    in the store, their names marked, the flag set from the root element. *)
Theorem LoadFromXml_truncated (txt : TextFunctions) (fs : FileSystem)
    (s : XSecSplineList) (filename : string) (keep : bool)
    (version uselog : string) (entries : list SplineText) :
  fs_files fs !! filename
  = Some (mkFile
            (mkNode root_name "" kNodeTypeStartElement 0
               [("version", version); ("uselog", uselog)]
             :: flat_map (reader_nodes 1) (spline_element <$> entries))
            ReadError) →
  fits_int (atoi (TrimSpaces txt uselog)) →
  Forall (well_counted txt) entries →
  LoadFromXml txt fs s filename keep
  = Ok (kXmlNotParsed,
        foldl (load_text_entry txt)
          (SetLogE (if keep then s else with_map s ∅)
             (atoi (TrimSpaces txt uselog) =? 1))
          entries).
Proof.
  intros Hf _ Hcount. apply well_counted_counts in Hcount.
  unfold LoadFromXml. rewrite Hf. cbn [file_nodes file_end].
  set (s0 := if keep then s else with_map s ∅).
  rewrite (load_nodes_step txt _ _ _ _ _ _
             (load_node_root txt s0 load_init version uselog)).
  destruct (load_text_blocks txt entries [] Hcount
              (SetLogE s0 (atoi (TrimSpaces txt uselog) =? 1)) load_init) as [l' Hl].
  rewrite app_nil_r in Hl. rewrite Hl. reflexivity.
Qed.

Lemma LoadFromXml_truncated_witness :
  LoadFromXml sample_text
    (mkFS {[ "cut.xml" := mkFile
               (mkNode root_name "" kNodeTypeStartElement 0
                  [("version", "2.00"); ("uselog", "1")]
                :: flat_map (reader_nodes 1)
                     (spline_element <$> [mkSplineText sample_key "1" [("5", "50")]]))
               ReadError ]} (λ _, true))
    XSecSplineList_ctor "cut.xml" false
  = Ok (kXmlNotParsed,
        foldl (load_text_entry sample_text)
          (SetLogE (with_map XSecSplineList_ctor ∅)
             (atoi (TrimSpaces sample_text "1") =? 1))
          [mkSplineText sample_key "1" [("5", "50")]]).
Proof.
  apply (LoadFromXml_truncated sample_text _ XSecSplineList_ctor "cut.xml" false
           "2.00" "1" [mkSplineText sample_key "1" [("5", "50")]]).
  - reflexivity.
  - split; vm_compute; discriminate.
  - constructor; [|constructor].
    split; [split; vm_compute; discriminate|vm_compute; reflexivity].
Defined.

(** ** The plotting program *)

Lemma load_nodes_Return (txt : TextFunctions) (ns : list XmlNode)
    (s s' : XSecSplineList) (l : LoadState) (st : XmlParserStatus_t) :
  load_nodes txt ns s l = Ok (Return st s') → st = kXmlInvalidRoot.
Proof.
  revert s l. induction ns as [|n ns IH]; intros s l; simpl; [done|].
  destruct (load_node txt n s l) as [r1|] eqn:Hn; simpl; [|done].
  destruct r1 as [s1 l1|st1 s1].
  - apply IH.
  - intros [= <- <-].
    by apply load_node_inv in Hn as [([= -> _] & _)|(? & ? & ? & ? & ? & _)].
Qed.

(** X20.  [LoadSplines] goes on when the file named on the command line
    cannot be opened, with the store as the load leaves it (emptied unless
    [keep]); it fails its assertion on a file with another root element; and
    it never returns on a file that the reader fails to parse to its end. *)
Theorem LoadSplines_outcomes (txt : TextFunctions) (fs : FileSystem)
    (s : XSecSplineList) (filename : string) (keep : bool) :
  (fs_files fs !! filename = None →
   LoadSplines txt fs s filename keep = Ok (if keep then s else with_map s ∅))
  ∧ (∀ f root rest, fs_files fs !! filename = Some f →
       root_element f root rest → node_name root ≠ root_name →
       LoadSplines txt fs s filename keep = Fault Aborted)
  ∧ (∀ f s', fs_files fs !! filename = Some f → file_end f = ReadError →
       LoadSplines txt fs s filename keep ≠ Ok s').
Proof.
  unfold LoadSplines, LoadFromXml. split; [|split].
  - by intros ->.
  - intros f root rest -> (pre & Hnodes & Hpre & Hroot) Hname.
    rewrite Hnodes, load_nodes_prolog by done. simpl.
    unfold load_node. rewrite Hroot.
    apply String.eqb_neq in Hname. by rewrite Hname.
  - intros f s' -> Hend.
    destruct (load_nodes txt (file_nodes f) _ load_init) as [[s1 l1|st1 s1]|flt] eqn:Hl;
      simpl; [by rewrite Hend| |done].
    by rewrite (load_nodes_Return _ _ _ _ _ _ Hl).
Qed.

Lemma LoadSplines_outcomes_witness :
  LoadSplines sample_text sample_fs loaded_store "missing.xml" false
  = Ok (with_map loaded_store ∅)
  ∧ LoadSplines sample_text sample_fs loaded_store "conf.xml" true = Fault Aborted.
Proof.
  split.
  - apply (LoadSplines_outcomes sample_text sample_fs loaded_store "missing.xml" false).
    reflexivity.
  - apply (proj1 (proj2 (LoadSplines_outcomes sample_text sample_fs loaded_store
                           "conf.xml" true))
             (file_of_document foreign_document)
             (mkNode "alg_conf" "" kNodeTypeStartElement 0 [])
             [mkNode "#text" " " 14 1 []; mkNode "alg_conf" "" kNodeTypeEndElement 0 []]).
    + reflexivity.
    + exists [mkNode "#comment" " not a spline file " 8 0 []].
      split; [reflexivity|]. split; [|reflexivity].
      constructor; [|constructor]. repeat split; vm_compute; congruence.
    + vm_compute. congruence.
Defined.

Lemma graph_style_value (i : Z) :
  0 <= i →
  graph_style i
  = Some (nth (Z.to_nat (Z.min (i mod 6) 5)) colors 0,
          nth (Z.to_nat (Z.min (i / 5) 4)) markers 0).
Proof.
  intros Hi. unfold graph_style, kNColors, kNMarkers.
  change (6 - 1) with 5. change (5 - 1) with 4.
  assert (Ha : (Z.to_nat (Z.min (i mod 6) 5) < 6)%nat) by lia.
  assert (Hb : (Z.to_nat (Z.min (i / 5) 4) < 5)%nat) by lia.
  destruct (Z.to_nat (Z.min (i mod 6) 5)) as [|[|[|[|[|[|a]]]]]]; [..|lia];
    (destruct (Z.to_nat (Z.min (i / 5) 4)) as [|[|[|[|[|b]]]]]; [..|lia]; reflexivity).
Qed.

(** X21.  The colour and marker of a graph are always read inside the two
    arrays; the first 25 graphs get pairwise different pairs of colour and
    marker; from the 21st graph on the marker is the last one, so that two
    later graphs whose numbers differ by a multiple of 6 look the same. *)
Theorem graph_style_spec (i j : Z) :
  0 <= i → 0 <= j →
  is_Some (graph_style i)
  ∧ (i < 25 → j < 25 → graph_style i = graph_style j → i = j)
  ∧ (20 <= i → 20 <= j → i mod 6 = j mod 6 → graph_style i = graph_style j).
Proof.
  intros Hi Hj. rewrite !graph_style_value by done. split; [done|]. split.
  - intros Hi' Hj' [= Hc Hm].
    assert (Ha : i mod 6 = j mod 6).
    { assert (Hx : (Z.to_nat (Z.min (i mod 6) 5) < 6)%nat) by lia.
      assert (Hy : (Z.to_nat (Z.min (j mod 6) 5) < 6)%nat) by lia.
      assert (Z.to_nat (Z.min (i mod 6) 5) = Z.to_nat (Z.min (j mod 6) 5)) as Heq.
      { destruct (Z.to_nat (Z.min (i mod 6) 5)) as [|[|[|[|[|[|a]]]]]]; [..|lia];
          (destruct (Z.to_nat (Z.min (j mod 6) 5)) as [|[|[|[|[|[|b]]]]]]; [..|lia];
           (reflexivity || (exfalso; revert Hc; vm_compute; discriminate))). }
      Z.div_mod_to_equations. lia. }
    assert (Hb : i / 5 = j / 5).
    { assert (Hx : (Z.to_nat (Z.min (i / 5) 4) < 5)%nat) by lia.
      assert (Hy : (Z.to_nat (Z.min (j / 5) 4) < 5)%nat) by lia.
      assert (Z.to_nat (Z.min (i / 5) 4) = Z.to_nat (Z.min (j / 5) 4)) as Heq.
      { destruct (Z.to_nat (Z.min (i / 5) 4)) as [|[|[|[|[|a]]]]]; [..|lia];
          (destruct (Z.to_nat (Z.min (j / 5) 4)) as [|[|[|[|[|b]]]]]; [..|lia];
           (reflexivity || (exfalso; revert Hm; vm_compute; discriminate))). }
      Z.div_mod_to_equations. lia. }
    Z.div_mod_to_equations. lia.
  - intros Hi' Hj' Hmod. rewrite Hmod.
    replace (Z.min (i / 5) 4) with 4 by (Z.div_mod_to_equations; lia).
    by replace (Z.min (j / 5) 4) with 4 by (Z.div_mod_to_equations; lia).
Qed.

Lemma graph_style_spec_witness :
  is_Some (graph_style 7) ∧ graph_style 24 = graph_style 30.
Proof.
  split.
  - apply (graph_style_spec 7 7); lia.
  - apply (graph_style_spec 24 30); [lia|lia|lia|lia|reflexivity].
Defined.

(** X23.  When [GetCommandLineArgs] returns, the options [-f], [-p] and [-t]
    were not missing, the plotted range is [0.01, Emax] with [Emax] the
    value of [-e], or 100 when [-e] was not given, and [0.01 < Emax]; an
    [-e] option for which the parser throws although it was on the command
    line leaves the zero of the start and so fails the assertion. *)
Theorem GetCommandLineArgs_returned (c : CommandLine) (g : Globals) :
  GetCommandLineArgs globals_at_start c = Returned g →
  arg_f c ≠ Threw false ∧ arg_p c ≠ Threw false ∧ arg_t c ≠ Threw false
  ∧ gEmin g = kEmin ∧ gEmax g = gOptNuEnergy g ∧ (gEmin g < gEmax g)%R
  ∧ (arg_e c = Threw false → gOptNuEnergy g = 100%R)
  ∧ (∀ v, arg_e c = Value v → gOptNuEnergy g = v)
  ∧ arg_e c ≠ Threw true.
Proof.
  unfold GetCommandLineArgs, read_option, globals_at_start.
  cbn [gOptXMLFilename gOptROOTFilename gOptNuEnergy gOptNuPdgCode gOptTgtPdgCode].
  destruct (arg_f c) as [f|[|]]; [| |done];
    (destruct (arg_p c) as [p|[|]]; [| |done]);
    (destruct (arg_t c) as [t|[|]]; [| |done]);
    (destruct (arg_e c) as [e|[|]]);
    (destruct (arg_o c) as [o|[|]]);
    (destruct (Rlt_dec kEmin _) as [Hlt|Hge]; [|try done]);
    try (exfalso; unfold kEmin in Hlt; lra);
    intros [= <-]; cbn [gEmin gEmax gOptNuEnergy];
    repeat split; try done; try (by intros v [= ->]).
Qed.

Lemma GetCommandLineArgs_returned_witness :
  gEmin {| gOptXMLFilename := "xsec.xml"; gOptROOTFilename := "";
           gOptNuEnergy := 100; gOptNuPdgCode := 14; gOptTgtPdgCode := 1000060120;
           gEmin := kEmin; gEmax := 100 |} = kEmin.
Proof.
  refine (proj1 (proj2 (proj2 (proj2
    (GetCommandLineArgs_returned
       {| arg_f := Value "xsec.xml"; arg_p := Value 14; arg_t := Value 1000060120;
          arg_e := Threw false; arg_o := Threw false |} _ _))))).
  unfold GetCommandLineArgs, read_option. simpl.
  destruct (Rlt_dec kEmin 100) as [_|Hn]; [reflexivity|].
  exfalso. apply Hn. unfold kEmin. lra.
Defined.

(** ** Keys and what they identify *)

Lemma append_cancel_l (a x y : string) : a +:+ x = a +:+ y → x = y.
Proof. induction a as [|c a IH]; simpl; [done|]. intros [= H]. by apply IH. Qed.

Lemma append_assoc (a b c : string) : (a +:+ b) +:+ c = a +:+ (b +:+ c).
Proof. induction a as [|x a IH]; [done|]. exact (f_equal (String x) IH). Qed.

Lemma append_longer (a b : string) : a +:+ String "/" b ≠ a.
Proof. induction a as [|x a IH]; simpl; [done|]. intros [= H]. by apply IH. Qed.

(** X24.  Under one algorithm two interactions get the same key exactly
    when their string forms are equal.  Across algorithms the key does not
    tell name and configuration apart: the separator may occur inside them,
    and two different algorithm ids then share their keys. *)
Theorem BuildSplineKey_collisions (a : XSecAlgorithmI) (i j : Interaction)
    (n c1 c2 : string) (f g : Interaction → R) :
  (BuildSplineKey (Some a) (Some i) = BuildSplineKey (Some a) (Some j)
   ↔ AsString i = AsString j)
  ∧ mkAlgId n (c1 +:+ "/" +:+ c2) ≠ mkAlgId (n +:+ "/" +:+ c1) c2
  ∧ BuildSplineKey (Some (mkAlg (mkAlgId n (c1 +:+ "/" +:+ c2)) f)) (Some i)
    = BuildSplineKey (Some (mkAlg (mkAlgId (n +:+ "/" +:+ c1) c2) g)) (Some i).
Proof.
  split; [|split].
  - unfold BuildSplineKey. split.
    + intros H. by do 4 apply append_cancel_l in H.
    + by intros ->.
  - intros [= H _]. symmetry in H. by apply append_longer in H.
  - unfold BuildSplineKey. cbn [Id Name Config]. by rewrite !append_assoc.
Qed.

(** X25.  A spline that [CreateSpline] has stored is among the entries a
    save writes whenever [save_init] is set or its key is not marked: the
    entry under the key of the algorithm and interaction, with the spline
    that [GetSpline] returns for them. *)
Theorem created_spline_is_saved (s s' : XSecSplineList) (a : XSecAlgorithmI)
    (i i' : Interaction) (nk : Z) (e_min e_max : R) (save_init : bool) :
  CreateSpline s (Some a) (Some i) nk e_min e_max = Ok (s', i') →
  save_init = true ∨ BuildSplineKey (Some a) (Some i) ∉ fInitSet s →
  ∃ spl, GetSplineFor s' (Some a) (Some i) = Some spl
         ∧ (BuildSplineKey (Some a) (Some i), spl) ∈ saved_entries s' save_init.
Proof.
  intros H Hsave.
  apply CreateSpline_inv in H as (a' & i0 & [= <-] & [= <-] & _ & -> & _).
  destruct (map_insert_lookup (BuildSplineKey (Some a) (Some i))
              (built_spline s a i nk e_min e_max).1 (fSplineMap s)) as [spl Hspl].
  exists spl. unfold GetSplineFor. rewrite GetSpline_lookup. cbn [fSplineMap with_map].
  split; [done|]. unfold saved_entries.
  apply list_elem_of_filter. cbn [fst fInitSet fSplineMap with_map]. split.
  - intros [Hk ->]. by destruct Hsave.
  - rewrite sorted_entries_Permutation. by apply elem_of_map_to_list.
Qed.

Lemma created_spline_is_saved_witness :
  ∃ spl, GetSplineFor created_store (Some sample_alg) (Some sample_interaction) = Some spl
         ∧ (BuildSplineKey (Some sample_alg) (Some sample_interaction), spl)
           ∈ saved_entries created_store false.
Proof.
  apply (created_spline_is_saved XSecSplineList_ctor created_store sample_alg
           sample_interaction _ 10 1 11 false create_sample).
  right. vm_compute. discriminate.
Defined.

(** ** Saving a list and loading it again *)







